(** * The NATS adapter of cfmessagebus (nats.go)

    A shallow embedding of [NatsAdapter] and of its methods.  The adapter is
    a thin layer over three libraries that are not part of the package: the
    yagnats broker client, gouuid and the Go runtime (clock, fmt).  Their
    calls are therefore recorded, in order, in a trace of events, and what
    they answer is read from an environment [Env] that may look at the whole
    trace so far.  Everything the adapter itself does (the fields it writes,
    the subscriptions it allocates, which library call it makes and with
    which arguments) is modelled as the code has it. *)

From Stdlib Require Import String Ascii ZArith List Lia DecimalString.
From stdpp Require Import base option list.
Import ListNotations.

Local Open Scope string_scope.
Local Open Scope list_scope.

(** ** Go values *)

(** [[]byte] *)
Definition bytes := list Byte.byte.

(** A function value handed in by the application ([func([]byte)],
    [func([]byte) []byte] or [func()]), known by its code address.  A nil
    function is [None] of [option Func]. *)
Inductive Func := FuncAt (addr : nat).

(** The [Logger] interface is declared elsewhere in the package; a logger is
    only ever stored and handed on. *)
Inductive Logger := LoggerAt (addr : nat).

(** Go's [error]: the values made here with [errors.New], and those that the
    libraries return. *)
Inductive error :=
| errors_New (text : string)
| lib_error (code : nat).

(** [*Subscription] : an address in the store of subscriptions. *)
Abbreviation ptr := nat.

(** The two function literals of the file.  [subscribeInNats_func sub] is the
    handler passed to the broker in [subscribeInNats]; it captures the pointer
    [sub].  [connect_func] is the closure stored into
    [client.ConnectedCallback] in [connect]; it captures the adapter. *)
Inductive MsgHandler := subscribeInNats_func (sub : ptr).
Inductive ConnHandler := connect_func.

Module nats.

Record ConnectionInfo := {
  Addr : string;
  Username : string;
  Password : string
}.

Record Message := {
  Subject : string;
  ReplyTo : string;
  Payload : string
}.

(** A client made by [nats.NewClient()]: the [serial]-th client made, and
    the two fields that [connect] assigns ([None] is what [NewClient] put
    there). *)
Record Client := {
  serial : nat;
  ConnectedCallback : option ConnHandler;
  Logger : option Logger
}.

End nats.

Record Subscription := {
  subject : string;
  callback : option Func;
  reply : option Func;
  id : Z
}.

Record NatsAdapter := {
  client : option nats.Client;
  host : string;
  user : string;
  port : Z;
  password : string;
  subscriptions : list ptr;
  rand : option Z;
  connectedCallback : option Func;
  logger : option Logger
}.

(** ** Calls that leave the adapter *)

Inductive Event :=
| EvNewClient
| EvConnect (c : nats.Client) (info : nats.ConnectionInfo)
| EvSubscribe (c : nats.Client) (subj : string) (h : MsgHandler)
| EvUnsubscribeAll (c : nats.Client) (subj : string)
| EvPublish (c : nats.Client) (subj : string) (message : bytes)
| EvPublishWithReplyTo (c : nats.Client) (subj : string) (replyTo : string)
    (message : bytes)
| EvPing (c : nats.Client)
| EvNewV4
| EvNow
| EvCallback (f : Func) (payload : bytes)
| EvReply (f : Func) (payload : bytes)
| EvConnected (f : Func).

Definition Trace := list Event.

(** ** Machine state

    [heap] holds the [Subscription] objects ([&Subscription{...}] appends one,
    its address is its index); [adapter.subscriptions] and the closures hold
    pointers into it.  [made] counts the clients made so far. *)
Record State := {
  adapter : NatsAdapter;
  heap : list Subscription;
  trace : Trace;
  made : nat
}.

Definition with_adapter (a : NatsAdapter) (s : State) : State :=
  {| adapter := a; heap := heap s; trace := trace s; made := made s |}.
Definition with_heap (h : list Subscription) (s : State) : State :=
  {| adapter := adapter s; heap := h; trace := trace s; made := made s |}.
Definition with_trace (t : Trace) (s : State) : State :=
  {| adapter := adapter s; heap := heap s; trace := t; made := made s |}.
Definition with_made (n : nat) (s : State) : State :=
  {| adapter := adapter s; heap := heap s; trace := trace s; made := n |}.

Definition with_client (c : option nats.Client) (a : NatsAdapter) :=
  {| client := c; host := host a; user := user a; port := port a;
     password := password a; subscriptions := subscriptions a;
     rand := rand a; connectedCallback := connectedCallback a;
     logger := logger a |}.
Definition with_config (h : string) (p : Z) (u pw : string) (a : NatsAdapter) :=
  {| client := client a; host := h; user := u; port := p;
     password := pw; subscriptions := subscriptions a;
     rand := rand a; connectedCallback := connectedCallback a;
     logger := logger a |}.
Definition with_subscriptions (l : list ptr) (a : NatsAdapter) :=
  {| client := client a; host := host a; user := user a; port := port a;
     password := password a; subscriptions := l;
     rand := rand a; connectedCallback := connectedCallback a;
     logger := logger a |}.
Definition with_rand (r : option Z) (a : NatsAdapter) :=
  {| client := client a; host := host a; user := user a; port := port a;
     password := password a; subscriptions := subscriptions a;
     rand := r; connectedCallback := connectedCallback a;
     logger := logger a |}.
Definition with_connectedCallback (f : option Func) (a : NatsAdapter) :=
  {| client := client a; host := host a; user := user a; port := port a;
     password := password a; subscriptions := subscriptions a;
     rand := rand a; connectedCallback := f;
     logger := logger a |}.
Definition with_logger (l : option Logger) (a : NatsAdapter) :=
  {| client := client a; host := host a; user := user a; port := port a;
     password := password a; subscriptions := subscriptions a;
     rand := rand a; connectedCallback := connectedCallback a;
     logger := l |}.

Definition with_id (n : Z) (s : Subscription) :=
  {| subject := subject s; callback := callback s; reply := reply s; id := n |}.

(** ** The monad of adapter code: state, and Go panics *)

Inductive Outcome (A : Type) :=
| Ret (a : A) (s : State)
| Panic.
Arguments Ret {A} a s.
Arguments Panic {A}.

Definition M (A : Type) := State -> Outcome A.

Definition ret {A} (a : A) : M A := fun s => Ret a s.
Definition bind {A B} (m : M A) (k : A -> M B) : M B :=
  fun s => match m s with
           | Ret a s' => k a s'
           | Panic => Panic
           end.
Definition panic {A} : M A := fun _ => Panic.

Declare Scope go_scope.
Delimit Scope go_scope with go.
Notation "x <- m ;; k" := (bind m (fun x => k))
  (at level 100, m at next level, right associativity) : go_scope.
Notation "m ;; k" := (bind m (fun _ => k))
  (at level 100, right associativity) : go_scope.
Local Open Scope go_scope.

Definition this : M NatsAdapter := fun s => Ret (adapter s) s.
Definition update (f : NatsAdapter -> NatsAdapter) : M unit :=
  fun s => Ret tt (with_adapter (f (adapter s)) s).

(** [&Subscription{...}] *)
Definition new (v : Subscription) : M ptr :=
  fun s => Ret (length (heap s)) (with_heap (heap s ++ [v]) s).
(** [*p], and the panic of a nil or dangling pointer *)
Definition load (p : ptr) : M Subscription :=
  fun s => match heap s !! p with
           | Some v => Ret v s
           | None => Panic
           end.
Definition store (p : ptr) (v : Subscription) : M unit :=
  fun s => match heap s !! p with
           | Some _ => Ret tt (with_heap (<[p := v]> (heap s)) s)
           | None => Panic
           end.

(** A method called on [adapter.client]: the yagnats methods dereference
    their receiver, so a nil client panics. *)
Definition receiver (c : option nats.Client) : M nats.Client :=
  match c with
  | Some c => ret c
  | None => panic
  end.

(** A library call: it is appended to the trace, and the environment
    answers from the trace that ends with it. *)
Definition call {A} (e : Event) (answer : Trace -> A) : M A :=
  fun s => Ret (answer (trace s ++ [e])) (with_trace (trace s ++ [e]) s).

(** [for _, x := range l { body }] *)
Fixpoint range {A} (l : list A) (body : A -> M unit) : M unit :=
  match l with
  | [] => ret tt
  | x :: l' => body x ;; range l' body
  end.

(** ** fmt.Sprintf, for the two formats of the file *)

(** ["%s:%d"] *)
Definition Sprintf_addr (h : string) (p : Z) : string :=
  String.append h (String.append ":" (NilZero.string_of_int (Z.to_int p))).

(** ** The adapter *)

Section Adapter.

(** gouuid's identifier type, and its [String] method (what ["%s"] prints). *)
Variable UUID : Type.

(** What the libraries and the application's functions answer. *)
Record Env := {
  Connect_result : Trace -> option error;
  Subscribe_result : Trace -> Z * option error;
  Publish_result : Trace -> option error;
  PublishWithReplyTo_result : Trace -> option error;
  Ping_result : Trace -> bool;
  NewV4_result : Trace -> UUID + error;
  UnixNano : Trace -> Z;
  Reply_result : Trace -> bytes;
  UUID_String : UUID -> string
}.

Variable env : Env.

(** ["_INBOX.%s"] *)
Definition Sprintf_inbox (u : UUID) : string :=
  String.append "_INBOX." (UUID_String env u).

Definition NewNatsAdapter : NatsAdapter :=
  {| client := None; host := ""; user := ""; port := 0%Z; password := "";
     subscriptions := []; rand := None; connectedCallback := None;
     logger := None |}.

Definition Configure (h : string) (p : Z) (u pw : string) : M unit :=
  update (with_config h p u pw).

Definition OnConnect (cb : option Func) : M unit :=
  update (with_connectedCallback cb).

Definition SetLogger (l : option Logger) : M unit :=
  update (with_logger l).

(** [nats.NewClient()] *)
Definition NewClient : M nats.Client :=
  fun s =>
    Ret {| nats.serial := made s; nats.ConnectedCallback := None;
           nats.Logger := None |}
        (with_made (S (made s)) (with_trace (trace s ++ [EvNewClient]) s)).

Definition replyToMessage (msg : nats.Message) (cb : Func) : M unit :=
  if String.eqb (nats.ReplyTo msg) "" then ret tt
  else
    a <- this ;;
    out <- call (EvReply cb (list_byte_of_string (nats.Payload msg)))
                (Reply_result env) ;;
    c <- receiver (client a) ;;
    _ <- call (EvPublish c (nats.ReplyTo msg) out) (Publish_result env) ;;
    ret tt.

(** Calling a nil [func([]byte)] panics. *)
Definition invoke_callback (f : option Func) (payload : bytes) : M unit :=
  match f with
  | Some f => call (EvCallback f payload) (fun _ => tt)
  | None => panic
  end.

(** The body of the handler built in [subscribeInNats]. *)
Definition run_MsgHandler (h : MsgHandler) (msg : nats.Message) : M unit :=
  match h with
  | subscribeInNats_func sub =>
      s <- load sub ;;
      match reply s with
      | Some r => replyToMessage msg r
      | None =>
          invoke_callback (callback s)
            (list_byte_of_string (nats.Payload msg))
      end
  end.

Definition subscribeInNats (sub : ptr) : M unit :=
  a <- this ;;
  s <- load sub ;;
  c <- receiver (client a) ;;
  r <- call (EvSubscribe c (subject s) (subscribeInNats_func sub))
            (Subscribe_result env) ;;
  s <- load sub ;;
  store sub (with_id (fst r) s).

(** The body of the closure stored in [client.ConnectedCallback]. *)
Definition run_ConnHandler (h : ConnHandler) : M unit :=
  match h with
  | connect_func =>
      a <- this ;;
      match connectedCallback a with
      | Some f => call (EvConnected f) (fun _ => tt)
      | None => ret tt
      end
  end.

Definition connect : M (option error) :=
  a <- this ;;
  let addr := Sprintf_addr (host a) (port a) in
  c <- NewClient ;;
  let c := {| nats.serial := nats.serial c;
              nats.ConnectedCallback := Some connect_func;
              nats.Logger := nats.Logger c |} in
  a <- this ;;
  let c := match logger a with
           | Some l => {| nats.serial := nats.serial c;
                          nats.ConnectedCallback := nats.ConnectedCallback c;
                          nats.Logger := Some l |}
           | None => c
           end in
  a <- this ;;
  err <- call (EvConnect c {| nats.Addr := addr;
                              nats.Username := user a;
                              nats.Password := password a |})
              (Connect_result env) ;;
  match err with
  | Some e => ret (Some e)
  | None =>
      update (with_client (Some c)) ;;
      now <- call EvNow (UnixNano env) ;;
      update (with_rand (Some now)) ;;
      a <- this ;;
      range (subscriptions a) subscribeInNats ;;
      ret None
  end.

Definition Connect : M (option error) := connect.

Definition createInbox : M (string * option error) :=
  r <- call EvNewV4 (NewV4_result env) ;;
  match r with
  | inr err => ret ("", Some err)
  | inl uuid => ret (Sprintf_inbox uuid, None)
  end.

Definition Subscribe (subj : string) (cb : option Func) : M (option error) :=
  sub <- new {| subject := subj; callback := cb; reply := None; id := 0%Z |} ;;
  a <- this ;;
  update (with_subscriptions (subscriptions a ++ [sub])) ;;
  a <- this ;;
  match client a with
  | Some _ => subscribeInNats sub ;; ret None
  | None =>
      ret (Some (errors_New "No connection to Nats. Caching subscription..."))
  end.

Definition withConnectionCheck (connection : option nats.Client)
    (cb : M (option error)) : M (option error) :=
  match connection with
  | None => ret (Some (errors_New "No connection to Nats"))
  | Some _ => cb
  end.

Definition UnsubscribeAll : M (option error) :=
  a <- this ;;
  withConnectionCheck (client a)
    (a <- this ;;
     range (subscriptions a)
       (fun sub =>
          a <- this ;;
          s <- load sub ;;
          c <- receiver (client a) ;;
          call (EvUnsubscribeAll c (subject s)) (fun _ => tt)) ;;
     update (with_subscriptions []) ;;
     ret None).

Definition Publish (subj : string) (message : bytes) : M (option error) :=
  a <- this ;;
  withConnectionCheck (client a)
    (a <- this ;;
     c <- receiver (client a) ;;
     call (EvPublish c subj message) (Publish_result env)).

Definition Request (subj : string) (message : bytes) (cb : option Func)
    : M (option error) :=
  a <- this ;;
  withConnectionCheck (client a)
    (r <- createInbox ;;
     match r with
     | (_, Some err) => ret (Some err)
     | (inbox, None) =>
         _ <- Subscribe inbox cb ;;
         a <- this ;;
         c <- receiver (client a) ;;
         call (EvPublishWithReplyTo c subj inbox message)
              (PublishWithReplyTo_result env)
     end).

Definition RespondToChannel (subj : string) (replyCallback : option Func)
    : M (option error) :=
  sub <- new {| subject := subj; callback := None; reply := replyCallback;
                id := 0%Z |} ;;
  a <- this ;;
  update (with_subscriptions (subscriptions a ++ [sub])) ;;
  a <- this ;;
  match client a with
  | Some _ => subscribeInNats sub ;; ret None
  | None =>
      ret (Some (errors_New "No connection to Nats. Caching subscription..."))
  end.

Definition Ping : M bool :=
  a <- this ;;
  match client a with
  | None => ret false
  | Some c => call (EvPing c) (Ping_result env)
  end.

End Adapter.

Arguments Connect_result {UUID} e t.
Arguments Subscribe_result {UUID} e t.
Arguments Publish_result {UUID} e t.
Arguments PublishWithReplyTo_result {UUID} e t.
Arguments Ping_result {UUID} e t.
Arguments NewV4_result {UUID} e t.
Arguments UnixNano {UUID} e t.
Arguments Reply_result {UUID} e t.
Arguments UUID_String {UUID} e u.
Arguments Sprintf_inbox {UUID} env u.
Arguments replyToMessage {UUID} env msg cb.
Arguments run_MsgHandler {UUID} env h msg.
Arguments subscribeInNats {UUID} env sub.
Arguments connect {UUID} env.
Arguments Connect {UUID} env.
Arguments createInbox {UUID} env.
Arguments Subscribe {UUID} env subj cb.
Arguments Publish {UUID} env subj message.
Arguments Request {UUID} env subj message cb.
Arguments RespondToChannel {UUID} env subj replyCallback.
Arguments Ping {UUID} env.

(** ** Runs of the adapter

    What can happen to an adapter: the application calls a method, or the
    broker client calls one of the two closures it was given. *)
Inductive Step :=
| DoConfigure (h : string) (p : Z) (u pw : string)
| DoConnect
| DoOnConnect (cb : option Func)
| DoSetLogger (l : option Logger)
| DoSubscribe (subj : string) (cb : option Func)
| DoUnsubscribeAll
| DoPublish (subj : string) (message : bytes)
| DoRequest (subj : string) (message : bytes) (cb : option Func)
| DoRespondToChannel (subj : string) (replyCallback : option Func)
| DoPing
| Deliver (h : MsgHandler) (msg : nats.Message)
| Connected (h : ConnHandler).

Definition step {UUID} (env : Env UUID) (x : Step) : M unit :=
  match x with
  | DoConfigure h p u pw => Configure h p u pw
  | DoConnect => _ <- Connect env ;; ret tt
  | DoOnConnect cb => OnConnect cb
  | DoSetLogger l => SetLogger l
  | DoSubscribe subj cb => _ <- Subscribe env subj cb ;; ret tt
  | DoUnsubscribeAll => _ <- UnsubscribeAll ;; ret tt
  | DoPublish subj m => _ <- Publish env subj m ;; ret tt
  | DoRequest subj m cb => _ <- Request env subj m cb ;; ret tt
  | DoRespondToChannel subj r => _ <- RespondToChannel env subj r ;; ret tt
  | DoPing => _ <- Ping env ;; ret tt
  | Deliver h msg => run_MsgHandler env h msg
  | Connected h => run_ConnHandler h
  end.

Fixpoint run {UUID} (env : Env UUID) (xs : list Step) : M unit :=
  match xs with
  | [] => ret tt
  | x :: xs' => step env x ;; run env xs'
  end.

(** The machine around [NewNatsAdapter()]. *)
Definition boot : State :=
  {| adapter := NewNatsAdapter; heap := []; trace := []; made := 0 |}.

Definition reachable {UUID} (env : Env UUID) (s : State) : Prop :=
  exists xs, run env xs boot = Ret tt s.

(** Every stored pointer points into the heap. *)
Definition wf (s : State) : Prop :=
  Forall (fun p => p < length (heap s)) (subscriptions (adapter s)).

(** The subject found behind a pointer. *)
Definition subject_at (h : list Subscription) (p : ptr) : string :=
  match h !! p with
  | Some v => subject v
  | None => ""
  end.

(** A subscription without its broker id. *)
Definition mode_of (v : Subscription) : string * option Func * option Func :=
  (subject v, callback v, reply v).

(** The client and the connection data that [connect] builds in state [s]. *)
Definition connect_client (s : State) : nats.Client :=
  {| nats.serial := made s;
     nats.ConnectedCallback := Some connect_func;
     nats.Logger := logger (adapter s) |}.

Definition connect_info (s : State) : nats.ConnectionInfo :=
  {| nats.Addr := Sprintf_addr (host (adapter s)) (port (adapter s));
     nats.Username := user (adapter s);
     nats.Password := password (adapter s) |}.

(** ** Environments to run the model on *)

Module Sample.

(** A broker that accepts everything and numbers subscriptions by the
    length of the trace; identifiers are numbered likewise and print as
    that many x's. *)
Definition env (fail_connect fail_subscribe : bool) : Env nat :=
  {| Connect_result := fun _ => if fail_connect then Some (lib_error 1) else None;
     Subscribe_result := fun t =>
       if fail_subscribe then (0%Z, Some (lib_error 2))
       else (Z.of_nat (length t), None);
     Publish_result := fun _ => None;
     PublishWithReplyTo_result := fun _ => None;
     Ping_result := fun _ => true;
     NewV4_result := fun t => inl (length t);
     UnixNano := fun t => Z.of_nat (length t);
     Reply_result := fun t =>
       match last t with
       | Some (EvReply _ payload) => rev payload
       | _ => []
       end;
     UUID_String := fun n => string_of_list_ascii (repeat "x"%char n) |}.

Definition ok := env false false.

Definition f1 := FuncAt 1.
Definition f2 := FuncAt 2.

End Sample.

(** The trace right after the broker was asked to open the connection. *)
Definition dialled (s : State) : Trace :=
  trace s ++ [EvNewClient; EvConnect (connect_client s) (connect_info s)].

(** The adapter error values, as the source spells them. *)
Definition no_connection : error := errors_New "No connection to Nats".
Definition caching : error :=
  errors_New "No connection to Nats. Caching subscription...".

(** State after [v] was allocated and appended, no broker in sight. *)
Definition queued (v : Subscription) (s : State) : State :=
  {| adapter :=
       with_subscriptions (subscriptions (adapter s) ++ [length (heap s)])
         (adapter s);
     heap := heap s ++ [v];
     trace := trace s;
     made := made s |}.

(** State after [v] was allocated, appended and registered on client [c]. *)
Definition registered {UUID} (env : Env UUID) (c : nats.Client)
    (v : Subscription) (s : State) : State :=
  let ev := EvSubscribe c (subject v) (subscribeInNats_func (length (heap s))) in
  {| adapter :=
       with_subscriptions (subscriptions (adapter s) ++ [length (heap s)])
         (adapter s);
     heap := heap s ++ [with_id (fst (Subscribe_result env (trace s ++ [ev]))) v];
     trace := trace s ++ [ev];
     made := made s |}.

(** The subscriptions a step allocates are of the step's making. *)
Definition made_by (x : Step) (m : string * option Func * option Func) : Prop :=
  match x with
  | DoSubscribe subj cb => m = (subj, cb, None)
  | DoRespondToChannel subj r => m = (subj, None, r)
  | DoRequest _ _ cb => exists inbox, m = (inbox, cb, None)
  | _ => False
  end.

(** Some open of a connection on the trace was accepted by the broker. *)
Definition accepted {UUID} (env : Env UUID) (t : Trace) : Prop :=
  exists pre c info,
    (pre ++ [EvConnect c info]) `prefix_of` t /\
    Connect_result env (pre ++ [EvConnect c info]) = None.

(** ** Modes of a subscription *)

Definition has (f : option Func) : bool :=
  match f with Some _ => true | None => false end.

(** Exactly one of the two handlers is set. *)
Definition one_mode (v : Subscription) : bool :=
  xorb (has (callback v)) (has (reply v)).

(** Both handlers are set. *)
Definition both_modes (v : Subscription) : bool :=
  has (callback v) && has (reply v).

(** What is behind the stored pointers, in order. *)
Definition stored (s : State) : list (option Subscription) :=
  map (fun p => heap s !! p) (subscriptions (adapter s)).

(** The handler argument of a step is not nil. *)
Definition handler_given (x : Step) : bool :=
  match x with
  | DoSubscribe _ cb => has cb
  | DoRequest _ _ cb => has cb
  | DoRespondToChannel _ r => has r
  | _ => true
  end.

(** The reading under which a reply handler runs on every message, with or
    without a reply-to address. *)
Definition reply_runs_always {UUID} (env : Env UUID) : Prop :=
  forall (s : State) p v r c msg,
    heap s !! p = Some v -> reply v = Some r ->
    client (adapter s) = Some c ->
    let t1 := trace s ++ [EvReply r (list_byte_of_string (nats.Payload msg))] in
    run_MsgHandler env (subscribeInNats_func p) msg s =
      Ret tt
        (with_trace
           (if nats.ReplyTo msg =? "" then t1
            else t1 ++ [EvPublish c (nats.ReplyTo msg) (Reply_result env t1)])
           s).

(** The reading under which every stored subscription of every reachable
    state has exactly one handler. *)
Definition always_one_mode {UUID} (env : Env UUID) : Prop :=
  forall s, reachable env s ->
    Forall (fun o => exists v, o = Some v /\ one_mode v = true) (stored s).

Module Scenario.
Import Sample.

(** A connected adapter that holds one reply-mode subscription. *)
Definition replying : State :=
  Eval vm_compute in
  match run ok [DoConnect; DoRespondToChannel "echo" (Some f2)] boot with
  | Ret _ s => s
  | Panic => boot
  end.

Definition ask : nats.Message :=
  {| nats.Subject := "echo"; nats.ReplyTo := "back"; nats.Payload := "ab" |}.
Definition tell : nats.Message :=
  {| nats.Subject := "echo"; nats.ReplyTo := ""; nats.Payload := "ab" |}.

(** Two subscriptions queued before any connection. *)
Definition waiting : State :=
  Eval vm_compute in
  match run ok [DoConfigure "h" 4222 "u" "p"; DoSubscribe "a" (Some f1);
                DoRespondToChannel "b" (Some f2)] boot with
  | Ret _ s => s
  | Panic => boot
  end.

(** The same two, connected, and a third subscription made afterwards. *)
Definition running : State :=
  Eval vm_compute in
  match run ok [DoConnect; DoSubscribe "c" (Some f1)] waiting with
  | Ret _ s => s
  | Panic => boot
  end.
End Scenario.

(** ** Further notions *)

(** The subscribe calls that a replay over the pointers [l] makes on client
    [c], the subjects being read in heap [h]. *)
Definition replay (c : nats.Client) (h : list Subscription) (l : list ptr)
    : Trace :=
  map (fun p => EvSubscribe c (subject_at h p) (subscribeInNats_func p)) l.

(** A handler that the broker was given points into the heap, and the
    adapter that gave it holds a client. *)
Definition sound_event (s : State) (e : Event) : Prop :=
  match e with
  | EvSubscribe _ _ (subscribeInNats_func p) =>
      p < length (heap s) /\ is_Some (client (adapter s))
  | _ => True
  end.

(** Text of ["%d"] for a Go int. *)
Definition Sprintf_d (p : Z) : string := NilZero.string_of_int (Z.to_int p).

Module Scenario2.
Import Sample.

(** A connected adapter with a logger and a connected-callback set after
    the connection was made. *)
Definition logged : State :=
  Eval vm_compute in
  match run ok [DoSubscribe "a" (Some f1); DoConnect;
                DoSetLogger (Some (LoggerAt 7)); DoOnConnect (Some f2)]
            boot with
  | Ret _ s => s
  | Panic => boot
  end.

Definition note : nats.Message :=
  {| nats.Subject := "a"; nats.ReplyTo := "back"; nats.Payload := "hi" |}.

End Scenario2.

(** The event is an open of a connection. *)
Definition is_open (e : Event) : bool :=
  match e with
  | EvConnect _ _ => true
  | _ => false
  end.

(** ** Inboxes *)

(** The inbox that a [Request] has just published with: the reply-to
    address of the last call on the trace. *)
Definition inbox_of (s : State) : option string :=
  match last (trace s) with
  | Some (EvPublishWithReplyTo _ _ replyTo _) => Some replyTo
  | _ => None
  end.

(** The reading under which two calls of [Request], one after the other,
    never use the same inbox. *)
Definition inboxes_always_distinct {UUID} (env : Env UUID) : Prop :=
  forall (s s1 s2 : State) subj message cb e1 e2 r1 r2,
    is_Some (client (adapter s)) ->
    Request env subj message cb s = Ret e1 s1 ->
    Request env subj message cb s1 = Ret e2 s2 ->
    inbox_of s1 = Some r1 -> inbox_of s2 = Some r2 ->
    r1 <> r2.

Module Repeating.

(** The sample broker, with an identifier generator that delivers the same
    identifier every time. *)
Definition env : Env nat :=
  {| Connect_result := Connect_result Sample.ok;
     Subscribe_result := Subscribe_result Sample.ok;
     Publish_result := Publish_result Sample.ok;
     PublishWithReplyTo_result := PublishWithReplyTo_result Sample.ok;
     Ping_result := Ping_result Sample.ok;
     NewV4_result := fun _ => inl 3;
     UnixNano := UnixNano Sample.ok;
     Reply_result := Reply_result Sample.ok;
     UUID_String := UUID_String Sample.ok |}.

End Repeating.

Module Scenario3.
Import Sample.

(** A nil callback first, then a reply handler on the same subject. *)
Definition mixed : State :=
  Eval vm_compute in
  match run ok [DoSubscribe "b" None; DoRespondToChannel "b" (Some f2)]
            boot with
  | Ret _ s => s
  | Panic => boot
  end.

End Scenario3.

(** * Properties *)

Local Open Scope go_scope.

(** ** Stepping through the monad *)

Ltac unfold_go :=
  unfold Connect, connect, Request, Subscribe, RespondToChannel,
    UnsubscribeAll, Publish, Ping, createInbox, withConnectionCheck,
    run_MsgHandler, replyToMessage, run_ConnHandler, invoke_callback,
    subscribeInNats, NewClient, Configure, OnConnect, SetLogger,
    bind, ret, panic, this, update, call, new, load, store, receiver,
    with_adapter, with_heap, with_trace, with_made in *.

Ltac go := unfold_go; cbn in *.

Lemma mode_of_with_id n v : mode_of (with_id n v) = mode_of v.
Proof. reflexivity. Qed.

Lemma map_mode_of_insert (h : list Subscription) p v n :
  h !! p = Some v ->
  map mode_of (<[p := with_id n v]> h) = map mode_of h.
Proof.
  intros Hp. change (map mode_of) with (fmap (M:=list) mode_of).
  rewrite list_fmap_insert, mode_of_with_id.
  apply list_insert_id. by rewrite list_lookup_fmap, Hp.
Qed.

Lemma subject_at_mode (h h' : list Subscription) :
  map mode_of h' = map mode_of h ->
  forall p, subject_at h' p = subject_at h p.
Proof.
  intros E p. unfold subject_at.
  assert (L : (mode_of <$> h') !! p = (mode_of <$> h) !! p)
    by (change (fmap (M:=list) mode_of) with (map mode_of); by rewrite E).
  rewrite !list_lookup_fmap in L.
  destruct (h' !! p) as [v'|], (h !! p) as [v|]; cbn in L; try done.
  unfold mode_of in L. congruence.
Qed.

Lemma subject_at_lookup (h : list Subscription) (p : ptr)
    (m : string * option Func * option Func) (subj : string) :
  map mode_of h !! p = Some m -> m.1.1 = subj -> subject_at h p = subj.
Proof.
  intros L <-. change (map mode_of) with (fmap (M:=list) mode_of) in L.
  rewrite list_lookup_fmap in L. unfold subject_at.
  destruct (h !! p) as [v|]; cbn in L; [|discriminate].
  by injection L as <-.
Qed.

Section Facts.

Context {UUID : Type} (env : Env UUID).

(** One registration with the broker: the call is made on the current
    client with the subject behind the pointer, and whatever id comes back
    is written behind the pointer; nothing else changes. *)
Lemma subscribeInNats_spec (s : State) c p v :
  client (adapter s) = Some c ->
  heap s !! p = Some v ->
  let ev := EvSubscribe c (subject v) (subscribeInNats_func p) in
  subscribeInNats env p s =
    Ret tt (with_heap
              (<[p := with_id (fst (Subscribe_result env (trace s ++ [ev]))) v]>
                 (heap s))
              (with_trace (trace s ++ [ev]) s)).
Proof.
  intros Hc Hp ev. go. rewrite Hp, Hc. cbn. rewrite Hp. cbn. rewrite Hp. reflexivity.
Qed.

(** The replay loop of [connect]. *)
Lemma range_subscribeInNats (l : list ptr) : forall (s : State) c,
  client (adapter s) = Some c ->
  Forall (fun p => p < length (heap s)) l ->
  exists s',
    range l (subscribeInNats env) s = Ret tt s' /\
    adapter s' = adapter s /\ made s' = made s /\
    trace s' = trace s ++
      map (fun p => EvSubscribe c (subject_at (heap s) p)
                      (subscribeInNats_func p)) l /\
    map mode_of (heap s') = map mode_of (heap s).
Proof.
  induction l as [|p l IH]; intros s c Hc Hl.
  - exists s. cbn. by rewrite app_nil_r.
  - inversion Hl as [|? ? Hp Hl']; subst.
    destruct (lookup_lt_is_Some_2 _ _ Hp) as [v Hv].
    cbn [range]. unfold bind at 1.
    rewrite (subscribeInNats_spec s c p v Hc Hv).
    set (s1 := with_heap _ _).
    assert (Hm : map mode_of (heap s1) = map mode_of (heap s))
      by (apply map_mode_of_insert; exact Hv).
    destruct (IH s1 c) as (s' & Hr & Ha & Hn & Ht & Hh).
    + exact Hc.
    + cbn. rewrite length_insert. exact Hl'.
    + exists s'. repeat split.
      * exact Hr.
      * by rewrite Ha.
      * by rewrite Hn.
      * rewrite Ht. cbn [trace s1 with_heap with_trace map].
        rewrite <- app_assoc. cbn [app]. f_equal. f_equal.
        -- unfold subject_at. by rewrite Hv.
        -- apply map_ext. intros q. f_equal. by apply subject_at_mode.
      * by rewrite Hh.
Qed.

End Facts.

(** ** What a call to [Subscribe] or [RespondToChannel] leaves behind *)

Lemma insert_snoc {A} (h : list A) (x y : A) :
  <[length h := y]> (h ++ [x]) = h ++ [y].
Proof.
  rewrite <- (Nat.add_0_r (length h)). by rewrite insert_app_r.
Qed.

(** Reading and writing the cell that was allocated last. *)
Ltac snoc Hc :=
  repeat (first [ rewrite Hc
                | rewrite list_lookup_middle by reflexivity
                | rewrite insert_snoc ]; cbn).

Section Enqueue.

Context {UUID : Type} (env : Env UUID).

Lemma Subscribe_nil (s : State) subj cb :
  client (adapter s) = None ->
  Subscribe env subj cb s =
    Ret (Some caching)
        (queued {| subject := subj; callback := cb; reply := None; id := 0 |} s).
Proof. intros Hc. go. rewrite Hc. reflexivity. Qed.

Lemma RespondToChannel_nil (s : State) subj r :
  client (adapter s) = None ->
  RespondToChannel env subj r s =
    Ret (Some caching)
        (queued {| subject := subj; callback := None; reply := r; id := 0 |} s).
Proof. intros Hc. go. rewrite Hc. reflexivity. Qed.

Lemma Subscribe_conn (s : State) c subj cb :
  client (adapter s) = Some c ->
  Subscribe env subj cb s =
    Ret None
        (registered env c
           {| subject := subj; callback := cb; reply := None; id := 0 |} s).
Proof. intros Hc. go. rewrite Hc. cbn. snoc Hc. reflexivity. Qed.

Lemma RespondToChannel_conn (s : State) c subj r :
  client (adapter s) = Some c ->
  RespondToChannel env subj r s =
    Ret None
        (registered env c
           {| subject := subj; callback := None; reply := r; id := 0 |} s).
Proof. intros Hc. go. rewrite Hc. cbn. snoc Hc. reflexivity. Qed.

End Enqueue.

(** ** [connect] *)

Section Connecting.

Context {UUID : Type} (env : Env UUID).

Lemma connect_refused (s : State) e :
  Connect_result env (dialled s) = Some e ->
  connect env s =
    Ret (Some e)
        {| adapter := adapter s; heap := heap s; trace := dialled s;
           made := S (made s) |}.
Proof.
  unfold dialled, connect_client, connect_info. intros He. go.
  rewrite <- app_assoc in *. cbn in *.
  destruct (logger (adapter s)); cbn in *; rewrite He; reflexivity.
Qed.

Lemma connect_accepted (s : State) :
  wf s ->
  Connect_result env (dialled s) = None ->
  let c := connect_client s in
  let now := UnixNano env (dialled s ++ [EvNow]) in
  exists s',
    connect env s = Ret None s' /\
    adapter s' = with_rand (Some now) (with_client (Some c) (adapter s)) /\
    made s' = S (made s) /\
    trace s' = dialled s ++ [EvNow] ++
      map (fun p => EvSubscribe c (subject_at (heap s) p)
                      (subscribeInNats_func p))
          (subscriptions (adapter s)) /\
    map mode_of (heap s') = map mode_of (heap s).
Proof.
  intros Hwf Hok c now.
  set (s1 := {| adapter := with_rand (Some now) (with_client (Some c) (adapter s));
                heap := heap s; trace := dialled s ++ [EvNow];
                made := S (made s) |}).
  destruct (range_subscribeInNats env (subscriptions (adapter s)) s1 c)
    as (s' & Hr & Ha & Hn & Ht & Hh); [reflexivity | exact Hwf |].
  exists s'. repeat split.
  - unfold connect. unfold bind at 1 2 3 4 5. unfold this at 1 2 3. cbn.
    assert (Hc : (match logger (adapter s) with
                  | Some l => {| nats.serial := made s;
                                 nats.ConnectedCallback := Some connect_func;
                                 nats.Logger := Some l |}
                  | None => {| nats.serial := made s;
                               nats.ConnectedCallback := Some connect_func;
                               nats.Logger := None |}
                  end) = c)
      by (unfold c, connect_client; by destruct (logger (adapter s))).
    rewrite Hc. unfold call at 1. cbn. rewrite <- app_assoc. cbn.
    fold (connect_info s). fold c.
    change (trace s ++ [EvNewClient; EvConnect c (connect_info s)])
      with (dialled s).
    rewrite Hok.
    unfold bind, update, call, this, ret, with_adapter, with_trace; cbn.
    fold now. fold s1.
    change (subscriptions (adapter s)) with (subscriptions (adapter s1)) in Hr.
    unfold bind, ret in Hr. cbn in Hr. rewrite Hr. reflexivity.
  - exact Ha.
  - exact Hn.
  - rewrite Ht. cbn [trace s1]. by rewrite <- app_assoc.
  - exact Hh.
Qed.

End Connecting.

(** ** The calls behind [withConnectionCheck], and [Ping] *)

Section Guarded.

Context {UUID : Type} (env : Env UUID).

(** The loop of [UnsubscribeAll]. *)
Lemma range_UnsubscribeAll (l : list ptr) : forall (s : State) c,
  client (adapter s) = Some c ->
  Forall (fun p => p < length (heap s)) l ->
  range l (fun sub =>
             a <- this ;;
             v <- load sub ;;
             c <- receiver (client a) ;;
             call (EvUnsubscribeAll c (subject v)) (fun _ => tt)) s =
    Ret tt (with_trace
              (trace s ++
                 map (fun p => EvUnsubscribeAll c (subject_at (heap s) p)) l)
              s).
Proof.
  induction l as [|p l IH]; intros s c Hc Hl.
  - cbn. unfold ret, with_trace. rewrite app_nil_r. by destruct s.
  - inversion Hl as [|? ? Hp Hl']; subst.
    destruct (lookup_lt_is_Some_2 _ _ Hp) as [v Hv].
    cbn [range]. unfold bind at 1. unfold bind at 1. unfold this at 1.
    unfold bind at 1. unfold load at 1. rewrite Hv.
    unfold bind at 1. rewrite Hc. cbn [receiver]. unfold ret at 1.
    unfold call at 1.
    rewrite (IH _ c) by assumption.
    unfold with_trace. cbn. rewrite <- app_assoc. cbn.
    unfold subject_at at 2. by rewrite Hv.
Qed.

Lemma UnsubscribeAll_conn (s : State) c :
  client (adapter s) = Some c ->
  wf s ->
  UnsubscribeAll s =
    Ret None
        {| adapter := with_subscriptions [] (adapter s);
           heap := heap s;
           trace := trace s ++
             map (fun p => EvUnsubscribeAll c (subject_at (heap s) p))
                 (subscriptions (adapter s));
           made := made s |}.
Proof.
  intros Hc Hwf. unfold UnsubscribeAll.
  unfold bind at 1. unfold this at 1. rewrite Hc. cbn [withConnectionCheck].
  unfold bind at 1. unfold this at 1. unfold bind at 1.
  rewrite (range_UnsubscribeAll _ s c Hc Hwf). reflexivity.
Qed.

Lemma UnsubscribeAll_nil (s : State) :
  client (adapter s) = None ->
  UnsubscribeAll s = Ret (Some no_connection) s.
Proof. intros Hc. go. rewrite Hc. reflexivity. Qed.

Lemma Publish_nil (s : State) subj message :
  client (adapter s) = None ->
  Publish env subj message s = Ret (Some no_connection) s.
Proof. intros Hc. go. rewrite Hc. reflexivity. Qed.

Lemma Publish_conn (s : State) c subj message :
  client (adapter s) = Some c ->
  let t := trace s ++ [EvPublish c subj message] in
  Publish env subj message s = Ret (Publish_result env t) (with_trace t s).
Proof. intros Hc t. go. rewrite Hc. cbn. rewrite Hc. reflexivity. Qed.

Lemma Request_nil (s : State) subj message cb :
  client (adapter s) = None ->
  Request env subj message cb s = Ret (Some no_connection) s.
Proof. intros Hc. go. rewrite Hc. reflexivity. Qed.

Lemma Request_no_inbox (s : State) c subj message cb err :
  client (adapter s) = Some c ->
  NewV4_result env (trace s ++ [EvNewV4]) = inr err ->
  Request env subj message cb s =
    Ret (Some err) (with_trace (trace s ++ [EvNewV4]) s).
Proof. intros Hc Hu. go. rewrite Hc. cbn. rewrite Hu. reflexivity. Qed.

Lemma Request_conn (s : State) c subj message cb uuid :
  client (adapter s) = Some c ->
  NewV4_result env (trace s ++ [EvNewV4]) = inl uuid ->
  let inbox := Sprintf_inbox env uuid in
  let s1 := registered env c
              {| subject := inbox; callback := cb; reply := None; id := 0 |}
              (with_trace (trace s ++ [EvNewV4]) s) in
  let t := trace s1 ++ [EvPublishWithReplyTo c subj inbox message] in
  Request env subj message cb s =
    Ret (PublishWithReplyTo_result env t) (with_trace t s1).
Proof.
  intros Hc Hu inbox s1 t. unfold Request.
  unfold bind at 1. unfold this at 1. rewrite Hc. cbn [withConnectionCheck].
  unfold bind at 1. unfold createInbox, bind at 1, call at 1. rewrite Hu.
  unfold ret at 1. fold inbox.
  unfold bind at 1.
  rewrite (Subscribe_conn env _ c) by exact Hc. fold s1.
  unfold bind, this, receiver, call, ret. cbn. rewrite Hc. reflexivity.
Qed.

Lemma Ping_nil (s : State) :
  client (adapter s) = None -> Ping env s = Ret false s.
Proof. intros Hc. go. rewrite Hc. reflexivity. Qed.

Lemma Ping_conn (s : State) c :
  client (adapter s) = Some c ->
  let t := trace s ++ [EvPing c] in
  Ping env s = Ret (Ping_result env t) (with_trace t s).
Proof. intros Hc t. go. rewrite Hc. reflexivity. Qed.

End Guarded.

(** ** The two closures, when the broker client calls them *)

Section Closures.

Context {UUID : Type} (env : Env UUID).

Lemma handler_reply_silent (s : State) p v r msg :
  heap s !! p = Some v -> reply v = Some r ->
  nats.ReplyTo msg = "" ->
  run_MsgHandler env (subscribeInNats_func p) msg s = Ret tt s.
Proof. intros Hp Hr Hm. go. rewrite Hp, Hr. cbn. rewrite Hm. reflexivity. Qed.

Lemma handler_reply_answers (s : State) p v r c msg :
  heap s !! p = Some v -> reply v = Some r ->
  client (adapter s) = Some c ->
  nats.ReplyTo msg <> "" ->
  let t1 := trace s ++ [EvReply r (list_byte_of_string (nats.Payload msg))] in
  let t2 := t1 ++ [EvPublish c (nats.ReplyTo msg) (Reply_result env t1)] in
  run_MsgHandler env (subscribeInNats_func p) msg s = Ret tt (with_trace t2 s).
Proof.
  intros Hp Hr Hc Hm t1 t2. go. rewrite Hp, Hr. cbn.
  apply String.eqb_neq in Hm. rewrite Hm. cbn. rewrite Hc. reflexivity.
Qed.

Lemma handler_callback (s : State) p v f msg :
  heap s !! p = Some v -> reply v = None -> callback v = Some f ->
  run_MsgHandler env (subscribeInNats_func p) msg s =
    Ret tt (with_trace
              (trace s ++
                 [EvCallback f (list_byte_of_string (nats.Payload msg))]) s).
Proof. intros Hp Hr Hf. go. rewrite Hp, Hr, Hf. reflexivity. Qed.

Lemma handler_nil_panics (s : State) p v msg :
  heap s !! p = Some v -> reply v = None -> callback v = None ->
  run_MsgHandler env (subscribeInNats_func p) msg s = Panic.
Proof. intros Hp Hr Hf. go. rewrite Hp, Hr, Hf. reflexivity. Qed.

(** A handler only ever adds to the trace. *)
Lemma handler_frame (s s' : State) h msg :
  run_MsgHandler env h msg s = Ret tt s' ->
  adapter s' = adapter s /\ heap s' = heap s /\ made s' = made s.
Proof.
  destruct h as [p]. go.
  destruct (heap s !! p) as [v|]; [|discriminate].
  destruct (reply v) as [r|].
  - destruct (nats.ReplyTo msg =? ""); cbn.
    + by intros [= <-].
    + destruct (client (adapter s)); cbn; [|discriminate]. by intros [= <-].
  - destruct (callback v); cbn; [|discriminate]. by intros [= <-].
Qed.

Lemma connected_set (s : State) f :
  connectedCallback (adapter s) = Some f ->
  run_ConnHandler connect_func s =
    Ret tt (with_trace (trace s ++ [EvConnected f]) s).
Proof. intros Hf. go. rewrite Hf. reflexivity. Qed.

Lemma connected_unset (s : State) :
  connectedCallback (adapter s) = None ->
  run_ConnHandler connect_func s = Ret tt s.
Proof. intros Hf. go. rewrite Hf. reflexivity. Qed.

End Closures.

(** ** Along a run *)

Lemma wf_same (s s' : State) :
  subscriptions (adapter s') = subscriptions (adapter s) ->
  map mode_of (heap s') = map mode_of (heap s) ->
  wf s -> wf s'.
Proof.
  unfold wf. intros -> Hh.
  assert (length (heap s') = length (heap s)) as ->; [|done].
  by rewrite <- (length_map mode_of (heap s')), Hh, length_map.
Qed.

Lemma wf_queued v s : wf s -> wf (queued v s).
Proof.
  unfold wf, queued. cbn. intros H. rewrite length_app. cbn.
  apply Forall_app. split.
  - eapply Forall_impl; [exact H|]. cbn. lia.
  - constructor; [lia|constructor].
Qed.

Lemma wf_registered {UUID} (env : Env UUID) c v s :
  wf s -> wf (registered env c v s).
Proof.
  unfold wf, registered. cbn. intros H. rewrite length_app. cbn.
  apply Forall_app. split.
  - eapply Forall_impl; [exact H|]. cbn. lia.
  - constructor; [lia|constructor].
Qed.

Lemma wf_boot : wf boot.
Proof. constructor. Qed.

Section Runs.

Context {UUID : Type} (env : Env UUID).

Lemma step_heap (x : Step) (s s' : State) :
  wf s ->
  step env x s = Ret tt s' ->
  wf s' /\
  exists more,
    map mode_of (heap s') = map mode_of (heap s) ++ more /\
    Forall (made_by x) more.
Proof.
  intros Hwf. destruct x; cbn [step].
  - (* Configure *)
    go. intros [= <-]. split; [exact Hwf|]. exists []. by rewrite app_nil_r.
  - (* Connect *)
    unfold bind, Connect.
    destruct (Connect_result env (dialled s)) as [e|] eqn:E.
    + rewrite (connect_refused env s e E). cbn. intros [= <-].
      split; [exact Hwf|]. exists []. by rewrite app_nil_r.
    + destruct (connect_accepted env s Hwf E) as (s1 & -> & Ha & _ & _ & Hh).
      cbn. intros [= <-]. split.
      * eapply wf_same; [|exact Hh|exact Hwf]. by rewrite Ha.
      * exists []. by rewrite app_nil_r.
  - (* OnConnect *)
    go. intros [= <-]. split; [exact Hwf|]. exists []. by rewrite app_nil_r.
  - (* SetLogger *)
    go. intros [= <-]. split; [exact Hwf|]. exists []. by rewrite app_nil_r.
  - (* Subscribe *)
    unfold bind. destruct (client (adapter s)) as [c|] eqn:Hc.
    + rewrite (Subscribe_conn env s c) by exact Hc. cbn. intros [= <-].
      split; [by apply wf_registered|].
      eexists [_]. cbn. rewrite map_app. split; [reflexivity|].
      by constructor.
    + rewrite (Subscribe_nil env s) by exact Hc. cbn. intros [= <-].
      split; [by apply wf_queued|].
      eexists [_]. cbn. rewrite map_app. split; [reflexivity|].
      by constructor.
  - (* UnsubscribeAll *)
    unfold bind. destruct (client (adapter s)) as [c|] eqn:Hc.
    + rewrite (UnsubscribeAll_conn s c Hc Hwf). cbn. intros [= <-].
      split; [constructor|]. exists []. by rewrite app_nil_r.
    + rewrite (UnsubscribeAll_nil s Hc). cbn. intros [= <-].
      split; [exact Hwf|]. exists []. by rewrite app_nil_r.
  - (* Publish *)
    unfold bind. destruct (client (adapter s)) as [c|] eqn:Hc.
    + rewrite (Publish_conn env s c) by exact Hc. cbn. intros [= <-].
      split; [exact Hwf|]. exists []. by rewrite app_nil_r.
    + rewrite (Publish_nil env s) by exact Hc. cbn. intros [= <-].
      split; [exact Hwf|]. exists []. by rewrite app_nil_r.
  - (* Request *)
    unfold bind. destruct (client (adapter s)) as [c|] eqn:Hc.
    + destruct (NewV4_result env (trace s ++ [EvNewV4])) as [u|err] eqn:Hu.
      * rewrite (Request_conn env s c _ _ _ u Hc Hu). cbn. intros [= <-].
        split.
        -- apply (wf_registered env c _ (with_trace (trace s ++ [EvNewV4]) s)).
           exact Hwf.
        -- eexists [_]. cbn. rewrite map_app. split; [reflexivity|].
           constructor; [|constructor]. by eexists.
      * rewrite (Request_no_inbox env s c _ _ _ err Hc Hu). cbn.
        intros [= <-]. split; [exact Hwf|]. exists []. by rewrite app_nil_r.
    + rewrite (Request_nil env s) by exact Hc. cbn. intros [= <-].
      split; [exact Hwf|]. exists []. by rewrite app_nil_r.
  - (* RespondToChannel *)
    unfold bind. destruct (client (adapter s)) as [c|] eqn:Hc.
    + rewrite (RespondToChannel_conn env s c) by exact Hc. cbn. intros [= <-].
      split; [by apply wf_registered|].
      eexists [_]. cbn. rewrite map_app. split; [reflexivity|].
      by constructor.
    + rewrite (RespondToChannel_nil env s) by exact Hc. cbn. intros [= <-].
      split; [by apply wf_queued|].
      eexists [_]. cbn. rewrite map_app. split; [reflexivity|].
      by constructor.
  - (* Ping *)
    unfold bind. destruct (client (adapter s)) as [c|] eqn:Hc.
    + rewrite (Ping_conn env s c) by exact Hc. cbn. intros [= <-].
      split; [exact Hwf|]. exists []. by rewrite app_nil_r.
    + rewrite (Ping_nil env s) by exact Hc. cbn. intros [= <-].
      split; [exact Hwf|]. exists []. by rewrite app_nil_r.
  - (* a message arrives *)
    intros H. destruct (handler_frame env _ _ _ _ H) as (Ha & Hh & _).
    split.
    + eapply wf_same; [by rewrite Ha|by rewrite Hh|exact Hwf].
    + exists []. by rewrite app_nil_r, Hh.
  - (* the connection is up *)
    destruct h. destruct (connectedCallback (adapter s)) as [f|] eqn:Hf.
    + rewrite (connected_set s f Hf). intros [= <-].
      split; [exact Hwf|]. exists []. by rewrite app_nil_r.
    + rewrite (connected_unset s Hf). intros [= <-].
      split; [exact Hwf|]. exists []. by rewrite app_nil_r.
Qed.

(** Along any run the stored pointers stay inside the heap, and every
    subscription in the heap was made by one of the steps. *)
Lemma run_heap (xs : list Step) : forall (s s' : State),
  wf s ->
  run env xs s = Ret tt s' ->
  wf s' /\
  exists more,
    map mode_of (heap s') = map mode_of (heap s) ++ more /\
    Forall (fun m => Exists (fun x => made_by x m) xs) more.
Proof.
  induction xs as [|x xs IH]; intros s s' Hwf.
  - cbn. intros [= <-]. split; [exact Hwf|]. exists []. by rewrite app_nil_r.
  - cbn [run]. unfold bind at 1.
    destruct (step env x s) as [[] s1|] eqn:E; [|discriminate].
    intros Hrun.
    destruct (step_heap x s s1 Hwf E) as (Hwf1 & m1 & Hm1 & Hf1).
    destruct (IH s1 s' Hwf1 Hrun) as (Hwf' & m2 & Hm2 & Hf2).
    split; [exact Hwf'|]. exists (m1 ++ m2). split.
    + by rewrite Hm2, Hm1, app_assoc.
    + apply Forall_app. split.
      * eapply Forall_impl; [exact Hf1|]. cbn. intros m Hm. by left.
      * eapply Forall_impl; [exact Hf2|]. cbn. intros m Hm. by right.
Qed.

Lemma reachable_wf (s : State) : reachable env s -> wf s.
Proof. intros [xs Hxs]. by destruct (run_heap xs boot s wf_boot Hxs). Qed.

Lemma accepted_more (t more : Trace) :
  accepted env t -> accepted env (t ++ more).
Proof.
  intros (pre & c & info & Hp & Hr). exists pre, c, info.
  split; [|exact Hr]. by apply prefix_app_r.
Qed.

Lemma accepted_dialled (s : State) (more : Trace) :
  Connect_result env (dialled s) = None ->
  accepted env (dialled s ++ more).
Proof.
  intros Hr. exists (trace s ++ [EvNewClient]), (connect_client s), (connect_info s).
  unfold dialled in *. rewrite <- !app_assoc. cbn.
  split; [|exact Hr]. apply prefix_app. by exists more.
Qed.

(** What a step does to the client and to the stored sequence: the trace
    only grows; the client changes only when an open is accepted; and as
    long as there is no client, the stored sequence only grows. *)
Lemma step_client (x : Step) (s s' : State) :
  wf s ->
  step env x s = Ret tt s' ->
  (exists more, trace s' = trace s ++ more) /\
  (client (adapter s') = client (adapter s) \/
   (accepted env (trace s') /\ is_Some (client (adapter s')))) /\
  (client (adapter s') = None ->
   subscriptions (adapter s) `prefix_of` subscriptions (adapter s')).
Proof.
  intros Hwf.
  assert (Hsame : forall t : State,
            adapter t = adapter s ->
            (exists more, trace t = trace s ++ more) ->
            (exists more, trace t = trace s ++ more) /\
            (client (adapter t) = client (adapter s) \/
             (accepted env (trace t) /\ is_Some (client (adapter t)))) /\
            (client (adapter t) = None ->
             subscriptions (adapter s) `prefix_of` subscriptions (adapter t))).
  { intros t -> Ht. split; [exact Ht|]. split; [by left|done]. }
  assert (Hgrow : forall t : State,
            client (adapter t) = client (adapter s) ->
            subscriptions (adapter t) =
              subscriptions (adapter s) ++ [length (heap s)] ->
            (exists more, trace t = trace s ++ more) ->
            (exists more, trace t = trace s ++ more) /\
            (client (adapter t) = client (adapter s) \/
             (accepted env (trace t) /\ is_Some (client (adapter t)))) /\
            (client (adapter t) = None ->
             subscriptions (adapter s) `prefix_of` subscriptions (adapter t))).
  { intros t Hc -> Ht. split; [exact Ht|]. split; [by left|].
    intros _. by apply prefix_app_r. }
  destruct x; cbn [step].
  - go. intros [= <-]. split; [exists []; by rewrite app_nil_r|].
    split; [by left|done].
  - unfold bind, Connect.
    destruct (Connect_result env (dialled s)) as [e|] eqn:E.
    + rewrite (connect_refused env s e E). cbn. intros [= <-].
      apply Hsame; [reflexivity|]. by eexists.
    + destruct (connect_accepted env s Hwf E) as (s1 & -> & Ha & _ & Ht & _).
      cbn. intros [= <-]. split; [|split].
      * rewrite Ht. unfold dialled. rewrite <- app_assoc. by eexists.
      * right. rewrite Ht, Ha. split; [by apply accepted_dialled|by eexists].
      * rewrite Ha. cbn. discriminate.
  - go. intros [= <-]. split; [exists []; by rewrite app_nil_r|].
    split; [by left|done].
  - go. intros [= <-]. split; [exists []; by rewrite app_nil_r|].
    split; [by left|done].
  - unfold bind. destruct (client (adapter s)) as [c|] eqn:Hc.
    + rewrite (Subscribe_conn env s c) by exact Hc. cbn. intros [= <-].
      apply Hgrow; [by cbn|by cbn|]. by eexists.
    + rewrite (Subscribe_nil env s) by exact Hc. cbn. intros [= <-].
      apply Hgrow; [by cbn|by cbn|]. exists []. by rewrite app_nil_r.
  - unfold bind. destruct (client (adapter s)) as [c|] eqn:Hc.
    + rewrite (UnsubscribeAll_conn s c Hc Hwf). cbn. intros [= <-].
      split; [by eexists|]. split; [by left|]. cbn. rewrite Hc. discriminate.
    + rewrite (UnsubscribeAll_nil s Hc). cbn. intros [= <-].
      apply Hsame; [reflexivity|]. exists []. by rewrite app_nil_r.
  - unfold bind. destruct (client (adapter s)) as [c|] eqn:Hc.
    + rewrite (Publish_conn env s c) by exact Hc. cbn. intros [= <-].
      apply Hsame; [reflexivity|]. by eexists.
    + rewrite (Publish_nil env s) by exact Hc. cbn. intros [= <-].
      apply Hsame; [reflexivity|]. exists []. by rewrite app_nil_r.
  - unfold bind. destruct (client (adapter s)) as [c|] eqn:Hc.
    + destruct (NewV4_result env (trace s ++ [EvNewV4])) as [u|err] eqn:Hu.
      * rewrite (Request_conn env s c _ _ _ u Hc Hu). cbn. intros [= <-].
        apply Hgrow; [by cbn|by cbn|]. cbn. rewrite <- !app_assoc. by eexists.
      * rewrite (Request_no_inbox env s c _ _ _ err Hc Hu). cbn.
        intros [= <-]. apply Hsame; [reflexivity|]. by eexists.
    + rewrite (Request_nil env s) by exact Hc. cbn. intros [= <-].
      apply Hsame; [reflexivity|]. exists []. by rewrite app_nil_r.
  - unfold bind. destruct (client (adapter s)) as [c|] eqn:Hc.
    + rewrite (RespondToChannel_conn env s c) by exact Hc. cbn. intros [= <-].
      apply Hgrow; [by cbn|by cbn|]. by eexists.
    + rewrite (RespondToChannel_nil env s) by exact Hc. cbn. intros [= <-].
      apply Hgrow; [by cbn|by cbn|]. exists []. by rewrite app_nil_r.
  - unfold bind. destruct (client (adapter s)) as [c|] eqn:Hc.
    + rewrite (Ping_conn env s c) by exact Hc. cbn. intros [= <-].
      apply Hsame; [reflexivity|]. by eexists.
    + rewrite (Ping_nil env s) by exact Hc. cbn. intros [= <-].
      apply Hsame; [reflexivity|]. exists []. by rewrite app_nil_r.
  - destruct h as [p]. intros H.
    destruct (handler_frame env _ _ _ _ H) as (Ha & _ & _).
    apply Hsame; [exact Ha|]. revert H. go.
    destruct (heap s !! p) as [v|]; [|discriminate].
    destruct (reply v) as [r|].
    + destruct (nats.ReplyTo msg =? ""); cbn.
      * intros [= <-]. exists []. by rewrite app_nil_r.
      * destruct (client (adapter s)); cbn; [|discriminate].
        intros [= <-]. cbn. rewrite <- app_assoc. by eexists.
    + destruct (callback v); cbn; [|discriminate].
      intros [= <-]. by eexists.
  - destruct h. destruct (connectedCallback (adapter s)) as [f|] eqn:Hf.
    + rewrite (connected_set s f Hf). intros [= <-].
      apply Hsame; [reflexivity|]. by eexists.
    + rewrite (connected_unset s Hf). intros [= <-].
      apply Hsame; [reflexivity|]. exists []. by rewrite app_nil_r.
Qed.

(** The same along a run. *)
Lemma run_client (xs : list Step) : forall (s s' : State),
  wf s ->
  run env xs s = Ret tt s' ->
  (client (adapter s) = None \/ accepted env (trace s) ->
   client (adapter s') = None \/ accepted env (trace s')) /\
  (client (adapter s') = None ->
   client (adapter s) = None /\
   subscriptions (adapter s) `prefix_of` subscriptions (adapter s')).
Proof.
  induction xs as [|x xs IH]; intros s s' Hwf.
  - cbn. intros [= <-]. split; [done|]. by intros ->.
  - cbn [run]. unfold bind at 1.
    destruct (step env x s) as [[] s1|] eqn:E; [|discriminate].
    intros Hrun.
    destruct (step_heap x s s1 Hwf E) as (Hwf1 & _).
    destruct (step_client x s s1 Hwf E) as ((more & Ht) & Hc & Hp).
    destruct (IH s1 s' Hwf1 Hrun) as (H1 & H2).
    split.
    + intros H. apply H1. destruct Hc as [Hc|[Hc _]]; [|by right].
      destruct H as [H|H]; [left; by rewrite Hc|].
      right. rewrite Ht. by apply accepted_more.
    + intros Hn. destruct (H2 Hn) as (Hn1 & Hp1).
      assert (Hn0 : client (adapter s) = None).
      { destruct Hc as [Hc|[_ [c Hc]]]; [by rewrite <- Hc|].
        rewrite Hc in Hn1. discriminate. }
      split; [exact Hn0|]. etrans; [by apply Hp|exact Hp1].
Qed.

(** Until the broker has accepted an open, the adapter holds no client. *)
Lemma no_client_before_accept (s : State) :
  reachable env s -> ~ accepted env (trace s) -> client (adapter s) = None.
Proof.
  intros [xs Hxs] Hna.
  destruct (run_client xs boot s wf_boot Hxs) as (H & _).
  destruct H as [H|H]; [by left|exact H|done].
Qed.

End Runs.

(** ** Subscriptions along a run *)

Lemma run_keeps_modes {UUID} (env : Env UUID) (xs : list Step)
    (s s' : State) (p : ptr) (v : Subscription) :
  wf s ->
  run env xs s = Ret tt s' ->
  heap s !! p = Some v ->
  exists v', heap s' !! p = Some v' /\ mode_of v' = mode_of v.
Proof.
  intros Hwf Hrun Hp.
  destruct (run_heap env xs s s' Hwf Hrun) as (_ & more & Hm & _).
  assert (L : (mode_of <$> heap s') !! p = Some (mode_of v)).
  { change (fmap (M:=list) mode_of (heap s')) with (map mode_of (heap s')).
    rewrite Hm. apply lookup_app_l_Some.
    change (map mode_of (heap s)) with (fmap (M:=list) mode_of (heap s)).
    by rewrite list_lookup_fmap, Hp. }
  rewrite list_lookup_fmap in L.
  destruct (heap s' !! p) as [v'|]; [|discriminate].
  exists v'. split; [reflexivity|]. cbn in L. unfold mode_of in *.
  congruence.
Qed.

(** The subscription that a call of [Subscribe] or [RespondToChannel] has
    just allocated, whatever the connection. *)
Lemma enqueue_allocates {UUID} (env : Env UUID) (s s1 : State)
    (subj : string) (h : option Func) (as_reply : bool) (e : option error) :
  (if as_reply then RespondToChannel env subj h else Subscribe env subj h) s
    = Ret e s1 ->
  wf s ->
  wf s1 /\
  exists v, heap s1 !! length (heap s) = Some v /\
    mode_of v = if as_reply then (subj, None, h) else (subj, h, None).
Proof.
  intros H Hwf. destruct (client (adapter s)) as [c|] eqn:Hc.
  - assert (s1 = registered env c
              (if as_reply
               then {| subject := subj; callback := None; reply := h; id := 0 |}
               else {| subject := subj; callback := h; reply := None; id := 0 |})
              s) as ->.
    { destruct as_reply.
      - rewrite (RespondToChannel_conn env s c) in H by exact Hc. by injection H.
      - rewrite (Subscribe_conn env s c) in H by exact Hc. by injection H. }
    split; [by apply wf_registered|]. cbn.
    rewrite list_lookup_middle by reflexivity. eexists. split; [reflexivity|].
    by destruct as_reply.
  - assert (s1 = queued
              (if as_reply
               then {| subject := subj; callback := None; reply := h; id := 0 |}
               else {| subject := subj; callback := h; reply := None; id := 0 |})
              s) as ->.
    { destruct as_reply.
      - rewrite (RespondToChannel_nil env s) in H by exact Hc. by injection H.
      - rewrite (Subscribe_nil env s) in H by exact Hc. by injection H. }
    split; [by apply wf_queued|]. cbn.
    rewrite list_lookup_middle by reflexivity. eexists. split; [reflexivity|].
    by destruct as_reply.
Qed.

(** ** Case analysis on a step

    [step_cases env s Hwf] turns a goal [step env x s = Ret tt s' -> G]
    into one goal per way a step can go, with [s'] replaced by the state
    that the step's lemma gives. *)
Ltac step_cases env s Hwf :=
  let c := fresh "c" in
  let Hc := fresh "Hc" in
  match goal with
  | |- step env ?x s = Ret tt _ -> _ => destruct x; cbn [step]
  end;
  [ unfold Configure, update; intros [= <-]
  | unfold bind, Connect;
    let e := fresh "e" in
    let E := fresh "E" in
    destruct (Connect_result env (dialled s)) as [e|] eqn:E;
    [ rewrite (connect_refused env s e E); cbn; intros [= <-]
    | let s1 := fresh "s1" in
      let Ha := fresh "Ha" in
      let Hn := fresh "Hn" in
      let Ht := fresh "Ht" in
      let Hh := fresh "Hh" in
      destruct (connect_accepted env s Hwf E) as (s1 & -> & Ha & Hn & Ht & Hh);
      cbn; intros [= <-] ]
  | unfold OnConnect, update; intros [= <-]
  | unfold SetLogger, update; intros [= <-]
  | unfold bind; destruct (client (adapter s)) as [c|] eqn:Hc;
    [ rewrite (Subscribe_conn env s c) by exact Hc
    | rewrite (Subscribe_nil env s) by exact Hc ];
    cbn; intros [= <-]
  | unfold bind; destruct (client (adapter s)) as [c|] eqn:Hc;
    [ rewrite (UnsubscribeAll_conn s c Hc Hwf)
    | rewrite (UnsubscribeAll_nil s Hc) ];
    cbn; intros [= <-]
  | unfold bind; destruct (client (adapter s)) as [c|] eqn:Hc;
    [ rewrite (Publish_conn env s c) by exact Hc
    | rewrite (Publish_nil env s) by exact Hc ];
    cbn; intros [= <-]
  | unfold bind; destruct (client (adapter s)) as [c|] eqn:Hc;
    [ let u := fresh "u" in
      let err := fresh "err" in
      let Hu := fresh "Hu" in
      destruct (NewV4_result env (trace s ++ [EvNewV4])) as [u|err] eqn:Hu;
      [ rewrite (Request_conn env s c _ _ _ u Hc Hu)
      | rewrite (Request_no_inbox env s c _ _ _ err Hc Hu) ]
    | rewrite (Request_nil env s) by exact Hc ];
    cbn; intros [= <-]
  | unfold bind; destruct (client (adapter s)) as [c|] eqn:Hc;
    [ rewrite (RespondToChannel_conn env s c) by exact Hc
    | rewrite (RespondToChannel_nil env s) by exact Hc ];
    cbn; intros [= <-]
  | unfold bind; destruct (client (adapter s)) as [c|] eqn:Hc;
    [ rewrite (Ping_conn env s c) by exact Hc
    | rewrite (Ping_nil env s) by exact Hc ];
    cbn; intros [= <-]
  | match goal with
    | |- run_MsgHandler _ ?h ?msg _ = _ -> _ =>
        let p := fresh "p" in
        let v := fresh "v" in
        let Hv := fresh "Hv" in
        let r := fresh "r" in
        let Hr := fresh "Hr" in
        let f := fresh "f" in
        let Hf := fresh "Hf" in
        let Hm := fresh "Hm" in
        destruct h as [p];
        destruct (heap s !! p) as [v|] eqn:Hv;
        [ destruct (reply v) as [r|] eqn:Hr;
          [ destruct (String.eqb (nats.ReplyTo msg) "") eqn:Hm;
            [ apply String.eqb_eq in Hm;
              rewrite (handler_reply_silent env s p v r msg Hv Hr Hm);
              intros [= <-]
            | apply String.eqb_neq in Hm;
              destruct (client (adapter s)) as [c|] eqn:Hc;
              [ rewrite (handler_reply_answers env s p v r c msg Hv Hr Hc Hm);
                cbn; intros [= <-]
              | unfold run_MsgHandler, replyToMessage, bind, load, this,
                  call, receiver, panic;
                rewrite Hv, Hr; apply String.eqb_neq in Hm; rewrite Hm;
                cbn; rewrite Hc; discriminate ] ]
          | destruct (callback v) as [f|] eqn:Hf;
            [ rewrite (handler_callback env s p v f msg Hv Hr Hf);
              intros [= <-]
            | rewrite (handler_nil_panics env s p v msg Hv Hr Hf);
              discriminate ] ]
        | unfold run_MsgHandler, bind, load; rewrite Hv; discriminate ]
    end
  | match goal with
    | |- run_ConnHandler ?h _ = _ -> _ =>
        let f := fresh "f" in
        let Hf := fresh "Hf" in
        destruct h; destruct (connectedCallback (adapter s)) as [f|] eqn:Hf;
        [ rewrite (connected_set s f Hf) | rewrite (connected_unset s Hf) ];
        intros [= <-]
    end ].

(** ** Where the subscriptions in the heap come from *)

(** A step allocates at most one subscription, and that one is of the
    step's making. *)
Lemma step_origin {UUID} (env : Env UUID) (x : Step) (s s' : State) :
  wf s ->
  step env x s = Ret tt s' ->
  exists more,
    map mode_of (heap s') = map mode_of (heap s) ++ more /\
    (more = [] \/ exists m, more = [m] /\ made_by x m).
Proof.
  intros Hwf.
  assert (Hnone : forall h : list Subscription,
            map mode_of h = map mode_of (heap s) ->
            exists more,
              map mode_of h = map mode_of (heap s) ++ more /\
              (more = [] \/ exists m, more = [m] /\ made_by x m)).
  { intros h Hh. exists []. rewrite app_nil_r. split; [exact Hh|by left]. }
  step_cases env s Hwf;
    try (apply Hnone; first [reflexivity | assumption]).
  all: unfold registered, queued, with_trace; cbn [heap];
    rewrite map_app; cbn [map];
    (eexists; split; [reflexivity|]; right; eexists;
     split; [reflexivity|]; cbn; by eauto).
Qed.

(** Along a run the heap grows by one subscription for each step that
    allocates, in the order of the steps. *)
Lemma run_origin {UUID} (env : Env UUID) (xs : list Step) :
  forall s s' : State,
    wf s ->
    run env xs s = Ret tt s' ->
    exists origins more,
      origins `sublist_of` xs /\
      map mode_of (heap s') = map mode_of (heap s) ++ more /\
      Forall2 made_by origins more.
Proof.
  induction xs as [|x xs IH]; intros s s' Hwf.
  - cbn. intros [= <-]. exists [], []. rewrite app_nil_r.
    split; [constructor|]. split; [reflexivity|constructor].
  - cbn [run]. unfold bind at 1.
    destruct (step env x s) as [[] s1|] eqn:E; [|discriminate].
    intros Hrun.
    destruct (step_heap env x s s1 Hwf E) as (Hwf1 & _).
    destruct (step_origin env x s s1 Hwf E) as (m1 & Hm1 & Hcase).
    destruct (IH s1 s' Hwf1 Hrun) as (o2 & m2 & Hsub & Hm2 & Hf2).
    destruct Hcase as [-> | (m & -> & Hmade)].
    + exists o2, m2. split; [by apply sublist_cons|].
      split; [|exact Hf2]. rewrite Hm2, Hm1. by rewrite app_nil_r.
    + exists (x :: o2), (m :: m2). split; [by apply sublist_skip|].
      split; [|by constructor].
      rewrite Hm2, Hm1. by rewrite <- app_assoc.
Qed.

(** What its origin says about a subscription. *)
Lemma made_by_modes (x : Step) (v : Subscription) :
  made_by x (mode_of v) ->
  both_modes v = false /\ one_mode v = handler_given x.
Proof.
  unfold both_modes, one_mode, mode_of.
  destruct x; cbn; try done.
  - intros [= _ -> ->]. split; [by destruct cb|by destruct cb].
  - intros (inbox & [= _ -> ->]). split; [by destruct cb|by destruct cb].
  - intros [= _ -> ->]. split; [done|by destruct replyCallback].
Qed.

(** * The claims *)

(** C1 (as amended).  [RespondToChannel] with a handler [r] stores a
    subscription whose reply handler is [r].  When a message with payload
    [P] arrives for a subscription with reply handler [r] on a connected
    adapter: if the message has a reply-to address [R], then [r] is called
    with [P] and what it returns is published to [R]; if it has none, the
    handler is not called and nothing is published, the state is left as
    it was. *)
Theorem reply_mode_dispatch (UUID : Type) (env : Env UUID) (s : State)
    (p : ptr) (v : Subscription) (r : Func) (c : nats.Client)
    (msg : nats.Message) :
  heap s !! p = Some v -> reply v = Some r ->
  client (adapter s) = Some c ->
  let P := list_byte_of_string (nats.Payload msg) in
  let R := nats.ReplyTo msg in
  let t1 := trace s ++ [EvReply r P] in
  run_MsgHandler env (subscribeInNats_func p) msg s =
    Ret tt (if R =? "" then s
            else with_trace (t1 ++ [EvPublish c R (Reply_result env t1)]) s)
  /\
  forall s0 subj, exists e s1 v1,
    RespondToChannel env subj (Some r) s0 = Ret e s1 /\
    last (stored s1) = Some (Some v1) /\
    subject v1 = subj /\ reply v1 = Some r /\ callback v1 = None.
Proof.
  intros Hp Hr Hc P R t1. split.
  - destruct (R =? "") eqn:E.
    + apply String.eqb_eq in E. by eapply handler_reply_silent.
    + apply String.eqb_neq in E. by eapply handler_reply_answers.
  - intros s0 subj. unfold stored.
    destruct (client (adapter s0)) as [c0|] eqn:Hc0.
    + rewrite (RespondToChannel_conn env s0 c0) by exact Hc0.
      do 3 eexists. split; [reflexivity|]. cbn.
      rewrite map_app. cbn. rewrite last_snoc.
      rewrite list_lookup_middle by reflexivity. by repeat split.
    + rewrite (RespondToChannel_nil env s0) by exact Hc0.
      do 3 eexists. split; [reflexivity|]. cbn.
      rewrite map_app. cbn. rewrite last_snoc.
      rewrite list_lookup_middle by reflexivity. by repeat split.
Qed.

Lemma reply_mode_dispatch_witness :
  run_MsgHandler Sample.ok (subscribeInNats_func 0) Scenario.ask Scenario.replying
  = Ret tt
      (with_trace
         (trace Scenario.replying ++
            [EvReply Sample.f2 [Byte.x61; Byte.x62];
             EvPublish (connect_client boot) "back" [Byte.x62; Byte.x61]])
         Scenario.replying).
Proof.
  refine (proj1 (reply_mode_dispatch nat Sample.ok Scenario.replying 0
                   {| subject := "echo"; callback := None;
                      reply := Some Sample.f2; id := 4 |}
                   Sample.f2 (connect_client boot) Scenario.ask _ _ _));
    reflexivity.
Defined.

(** C1, as stated, fails: on a message without reply-to address the handler
    is not called. *)
Lemma reply_runs_always_refuted : ~ reply_runs_always Sample.ok.
Proof.
  intros H.
  specialize (H Scenario.replying 0
                {| subject := "echo"; callback := None;
                   reply := Some Sample.f2; id := 4 |}
                Sample.f2 (connect_client boot) Scenario.tell
                eq_refl eq_refl eq_refl).
  vm_compute in H. discriminate H.
Qed.

(** C2.  [Subscribe] and [RespondToChannel] always allocate the new
    subscription and append it to the stored sequence.  Without a connection
    they return the "Caching subscription" error and call nothing, and the
    subscription waits: whatever is done next, as long as the adapter is
    still without a client, the next [Connect] that the broker accepts
    registers it on the new client.  With a connection they register it at
    once, on the current client, and return no error. *)
Theorem enqueue_always (UUID : Type) (env : Env UUID) (s : State)
    (subj : string) (h : option Func) (as_reply : bool) :
  wf s ->
  let op := if as_reply then RespondToChannel env subj h
            else Subscribe env subj h in
  let v := if as_reply
           then {| subject := subj; callback := None; reply := h; id := 0 |}
           else {| subject := subj; callback := h; reply := None; id := 0 |} in
  let p := length (heap s) in
  exists e s',
    op s = Ret e s' /\
    subscriptions (adapter s') = subscriptions (adapter s) ++ [p] /\
    (exists n, heap s' = heap s ++ [with_id n v]) /\
    match client (adapter s) with
    | None =>
        e = Some (errors_New "No connection to Nats. Caching subscription...") /\
        trace s' = trace s /\
        forall (xs : list Step) (s2 : State),
          run env xs s' = Ret tt s2 ->
          client (adapter s2) = None ->
          Connect_result env (dialled s2) = None ->
          exists s3 rest,
            Connect env s2 = Ret None s3 /\
            trace s3 = dialled s2 ++ [EvNow] ++ rest /\
            In (EvSubscribe (connect_client s2) subj (subscribeInNats_func p))
               rest
    | Some c =>
        e = None /\
        trace s' = trace s ++ [EvSubscribe c subj (subscribeInNats_func p)]
    end.
Proof.
  intros Hwf op v p.
  destruct (client (adapter s)) as [c|] eqn:Hc.
  - exists None, (registered env c v s). split.
    + unfold op, v. destruct as_reply.
      * by apply RespondToChannel_conn.
      * by apply Subscribe_conn.
    + cbn. split; [reflexivity|]. split; [by eexists|].
      split; [reflexivity|]. unfold v. destruct as_reply; reflexivity.
  - exists (Some caching), (queued v s). split.
    + unfold op, v. destruct as_reply.
      * by apply RespondToChannel_nil.
      * by apply Subscribe_nil.
    + split; [reflexivity|].
      split; [by exists 0%Z; unfold v; destruct as_reply|].
      split; [reflexivity|]. split; [reflexivity|].
      intros xs s2 Hrun Hn2 Hok.
      pose proof (wf_queued v s Hwf) as Hwf1.
      destruct (run_heap env xs _ _ Hwf1 Hrun) as (Hwf2 & more & Hm & _).
      destruct (run_client env xs _ _ Hwf1 Hrun) as (_ & Hpre).
      destruct (Hpre Hn2) as (_ & [later Hsubs]).
      destruct (connect_accepted env s2 Hwf2 Hok) as (s3 & Hr & _ & _ & Ht & _).
      exists s3. eexists. split; [exact Hr|]. split; [exact Ht|].
      apply in_map_iff. exists p. split.
      * f_equal. apply subject_at_lookup with (m := mode_of v).
        -- rewrite Hm. cbn [queued heap]. rewrite map_app. cbn [map].
           rewrite <- app_assoc. cbn [app].
           apply list_lookup_middle. by rewrite length_map.
        -- unfold v. by destruct as_reply.
      * rewrite Hsubs. cbn [queued adapter subscriptions with_subscriptions].
        rewrite <- app_assoc. apply in_or_app. right. by left.
Qed.

Lemma enqueue_always_witness :
  exists e s',
    Subscribe Sample.ok "c" (Some Sample.f1) Scenario.waiting = Ret e s' /\
    subscriptions (adapter s') = [0; 1; 2] /\
    e = Some (errors_New "No connection to Nats. Caching subscription...") /\
    trace s' = [] /\
    exists s2 s3 rest,
      run Sample.ok [DoPublish "x" []; DoOnConnect None] s' = Ret tt s2 /\
      Connect Sample.ok s2 = Ret None s3 /\
      trace s3 = dialled s2 ++ [EvNow] ++ rest /\
      In (EvSubscribe (connect_client s2) "c" (subscribeInNats_func 2)) rest.
Proof.
  destruct (enqueue_always nat Sample.ok Scenario.waiting "c" (Some Sample.f1)
              false) as (e & s' & H1 & H2 & _ & H3 & H4 & H5).
  - vm_compute. repeat constructor.
  - exists e, s'. do 4 (split; [assumption|]).
    injection H1 as _ <-.
    destruct (H5 [DoPublish "x" []; DoOnConnect None] _ eq_refl eq_refl eq_refl)
      as (s3 & rest & H6 & H7 & H8).
    eexists. exists s3, rest. split; [reflexivity|].
    split; [exact H6|]. split; [exact H7|exact H8].
Defined.

(** C3.  While the adapter holds no client, [Publish], [Request] and
    [UnsubscribeAll] return the "No connection to Nats" error and leave the
    state and the trace untouched, and [Ping] returns false, likewise
    without calling anything. *)
Theorem no_client_no_action (UUID : Type) (env : Env UUID) (s : State)
    (subj : string) (message : bytes) (cb : option Func) :
  client (adapter s) = None ->
  Publish env subj message s = Ret (Some (errors_New "No connection to Nats")) s /\
  Request env subj message cb s = Ret (Some (errors_New "No connection to Nats")) s /\
  UnsubscribeAll s = Ret (Some (errors_New "No connection to Nats")) s /\
  Ping env s = Ret false s.
Proof.
  intros Hc. repeat split.
  - by apply Publish_nil.
  - by apply Request_nil.
  - by apply UnsubscribeAll_nil.
  - by apply Ping_nil.
Qed.

Lemma no_client_no_action_witness :
  Publish Sample.ok "a" [] Scenario.waiting =
    Ret (Some (errors_New "No connection to Nats")) Scenario.waiting /\
  Request Sample.ok "a" [] (Some Sample.f1) Scenario.waiting =
    Ret (Some (errors_New "No connection to Nats")) Scenario.waiting /\
  UnsubscribeAll Scenario.waiting =
    Ret (Some (errors_New "No connection to Nats")) Scenario.waiting /\
  Ping Sample.ok Scenario.waiting = Ret false Scenario.waiting.
Proof.
  apply (no_client_no_action nat Sample.ok Scenario.waiting "a" []
           (Some Sample.f1)).
  reflexivity.
Defined.

(** C4.  When the broker accepts the connection, [Connect] returns no
    error; the adapter then holds the new client and a generator seeded with
    the clock reading; and after the clock was read, every stored
    subscription was registered on the new client, one call each, in the
    order of the stored sequence.  Nothing is assumed about what those calls
    answer: their errors do not reach the result.  The stored sequence and
    the subscriptions (ids apart) are as before. *)
Theorem connect_replays (UUID : Type) (env : Env UUID) (s : State) :
  wf s ->
  Connect_result env (dialled s) = None ->
  let c := connect_client s in
  exists s',
    Connect env s = Ret None s' /\
    client (adapter s') = Some c /\
    rand (adapter s') = Some (UnixNano env (dialled s ++ [EvNow])) /\
    subscriptions (adapter s') = subscriptions (adapter s) /\
    trace s' =
      trace s ++ [EvNewClient; EvConnect c (connect_info s); EvNow] ++
      map (fun p => EvSubscribe c (subject_at (heap s) p)
                      (subscribeInNats_func p))
          (subscriptions (adapter s)) /\
    map mode_of (heap s') = map mode_of (heap s).
Proof.
  intros Hwf Hok c.
  destruct (connect_accepted env s Hwf Hok) as (s' & Hr & Ha & _ & Ht & Hh).
  exists s'. split; [exact Hr|]. rewrite Ha. cbn.
  do 3 (split; [reflexivity|]). split; [|exact Hh].
  rewrite Ht. unfold dialled. by rewrite <- app_assoc.
Qed.

Lemma connect_replays_witness :
  exists s',
    Connect (Sample.env false true) Scenario.waiting = Ret None s' /\
    trace s' =
      [EvNewClient;
       EvConnect (connect_client Scenario.waiting) (connect_info Scenario.waiting);
       EvNow;
       EvSubscribe (connect_client Scenario.waiting) "a" (subscribeInNats_func 0);
       EvSubscribe (connect_client Scenario.waiting) "b" (subscribeInNats_func 1)].
Proof.
  destruct (connect_replays nat (Sample.env false true) Scenario.waiting)
    as (s' & H1 & _ & _ & _ & H2 & _).
  - vm_compute. repeat constructor.
  - reflexivity.
  - exists s'. split; [exact H1|exact H2].
Defined.

(** C5.  With a client, [UnsubscribeAll] asks it to drop all listeners on
    the subject of each stored subscription, in order, then stores the empty
    sequence and returns no error.  Without one it returns the
    "No connection to Nats" error and changes nothing. *)
Theorem unsubscribe_all_clears (s : State) :
  wf s ->
  UnsubscribeAll s =
    match client (adapter s) with
    | Some c =>
        Ret None
          {| adapter := with_subscriptions [] (adapter s);
             heap := heap s;
             trace := trace s ++
               map (fun p => EvUnsubscribeAll c (subject_at (heap s) p))
                   (subscriptions (adapter s));
             made := made s |}
    | None => Ret (Some (errors_New "No connection to Nats")) s
    end.
Proof.
  intros Hwf. destruct (client (adapter s)) as [c|] eqn:Hc.
  - by apply UnsubscribeAll_conn.
  - by apply UnsubscribeAll_nil.
Qed.

Lemma unsubscribe_all_clears_witness :
  UnsubscribeAll Scenario.running =
    Ret None
      (with_trace
         (trace Scenario.running ++
            [EvUnsubscribeAll (connect_client Scenario.waiting) "a";
             EvUnsubscribeAll (connect_client Scenario.waiting) "b";
             EvUnsubscribeAll (connect_client Scenario.waiting) "c"])
         (with_adapter (with_subscriptions [] (adapter Scenario.running))
            Scenario.running)).
Proof.
  refine (eq_trans (unsubscribe_all_clears Scenario.running _) _).
  - vm_compute. repeat constructor.
  - reflexivity.
Defined.

(** C7.  When the broker refuses the connection, [Connect] returns the
    broker's error as it is; the adapter (client, stored sequence and all
    other fields) and the subscriptions are as before, and the only calls
    made are the making of the client and the refused open: nothing is
    replayed. *)
Theorem connect_refusal_changes_nothing (UUID : Type) (env : Env UUID)
    (s : State) (e : error) :
  Connect_result env (dialled s) = Some e ->
  exists s',
    Connect env s = Ret (Some e) s' /\
    adapter s' = adapter s /\
    heap s' = heap s /\
    trace s' =
      trace s ++ [EvNewClient; EvConnect (connect_client s) (connect_info s)].
Proof.
  intros He. eexists. split; [by apply connect_refused|]. by cbn.
Qed.

Lemma connect_refusal_changes_nothing_witness :
  exists s',
    Connect (Sample.env true false) Scenario.waiting =
      Ret (Some (lib_error 1)) s' /\
    adapter s' = adapter Scenario.waiting /\
    heap s' = heap Scenario.waiting /\
    trace s' =
      [EvNewClient;
       EvConnect (connect_client Scenario.waiting) (connect_info Scenario.waiting)].
Proof.
  apply (connect_refusal_changes_nothing nat (Sample.env true false)
           Scenario.waiting (lib_error 1)).
  reflexivity.
Defined.

(** C6 (as amended).  With a client, and gouuid delivering an identifier,
    [Request] makes the inbox subject "_INBOX." followed by the identifier's
    text, subscribes the callback on it exactly as [Subscribe] does (the
    inbox subscription is allocated, appended to the stored sequence and
    registered with the broker), then publishes the message on the
    requested subject with the inbox as reply-to address, and returns what
    that publish returns.  The adapter adds nothing of its own to make
    inboxes differ: any other call of [Request] uses the same inbox exactly
    when gouuid delivers it an identifier with the same text. *)
Theorem request_uses_fresh_inbox (UUID : Type) (env : Env UUID) (s : State)
    (c : nats.Client) (subj : string) (message : bytes) (cb : option Func)
    (uuid : UUID) :
  client (adapter s) = Some c ->
  NewV4_result env (trace s ++ [EvNewV4]) = inl uuid ->
  let inbox := String.append "_INBOX." (UUID_String env uuid) in
  let p := length (heap s) in
  (exists e s',
     Request env subj message cb s = Ret e s' /\
     (exists s1, Subscribe env inbox cb (with_trace (trace s ++ [EvNewV4]) s)
                   = Ret None s1 /\
                 adapter s' = adapter s1 /\ heap s' = heap s1) /\
     subscriptions (adapter s') = subscriptions (adapter s) ++ [p] /\
     (exists n, heap s' = heap s ++
        [{| subject := inbox; callback := cb; reply := None; id := n |}]) /\
     trace s' = trace s ++
       [EvNewV4; EvSubscribe c inbox (subscribeInNats_func p);
        EvPublishWithReplyTo c subj inbox message] /\
     inbox_of s' = Some inbox /\
     e = PublishWithReplyTo_result env (trace s')) /\
  (forall (s2 : State) (c2 : nats.Client) (subj2 : string)
          (message2 : bytes) (cb2 : option Func) (uuid2 : UUID),
     client (adapter s2) = Some c2 ->
     NewV4_result env (trace s2 ++ [EvNewV4]) = inl uuid2 ->
     exists e2 s2' inbox2,
       Request env subj2 message2 cb2 s2 = Ret e2 s2' /\
       inbox_of s2' = Some inbox2 /\
       (inbox2 = inbox <-> UUID_String env uuid2 = UUID_String env uuid)).
Proof.
  intros Hc Hu inbox p. split.
  - do 2 eexists. split; [by apply (Request_conn env s c _ _ _ uuid)|].
    cbn. split.
    + eexists. split.
      * apply (Subscribe_conn env (with_trace (trace s ++ [EvNewV4]) s) c).
        exact Hc.
      * by cbn.
    + split; [reflexivity|]. split; [by eexists|].
      split; [by rewrite <- !app_assoc|].
      split; [|reflexivity]. unfold inbox_of. cbn. by rewrite last_snoc.
  - intros s2 c2 subj2 message2 cb2 uuid2 Hc2 Hu2.
    rewrite (Request_conn env s2 c2 _ _ _ uuid2 Hc2 Hu2).
    do 2 eexists. exists (Sprintf_inbox env uuid2).
    split; [reflexivity|]. split.
    + unfold inbox_of. cbn. by rewrite last_snoc.
    + unfold inbox, Sprintf_inbox. cbn. split.
      * intros Heq. by injection Heq.
      * by intros ->.
Qed.

Lemma request_uses_fresh_inbox_witness :
  let s1 := match Request Sample.ok "q" [] (Some Sample.f1) Scenario.running
            with
            | Ret _ s => s
            | Panic => boot
            end in
  subscriptions (adapter s1) = [0; 1; 2; 3] /\
  inbox_of s1 = Some "_INBOX.xxxxxxx" /\
  exists e2 s2,
    Request Sample.ok "q" [] (Some Sample.f1) s1 = Ret e2 s2 /\
    inbox_of s2 = Some "_INBOX.xxxxxxxxxx".
Proof.
  intros s1.
  destruct (request_uses_fresh_inbox nat Sample.ok Scenario.running
              (connect_client Scenario.waiting) "q" [] (Some Sample.f1) 7)
    as [(e & s' & H1 & _ & H2 & _ & _ & H3 & _) H4].
  - reflexivity.
  - reflexivity.
  - assert (s' = s1) as -> by (unfold s1; by rewrite H1).
    split; [exact H2|]. split; [exact H3|].
    destruct (H4 s1 (connect_client Scenario.waiting) "q" []
                (Some Sample.f1) 10 eq_refl eq_refl)
      as (e2 & s2 & inbox2 & H5 & _).
    exists e2, s2. split; [exact H5|].
    change (inbox_of s2)
      with (match Ret e2 s2 with
            | Ret _ s => inbox_of s
            | Panic => None
            end).
    rewrite <- H5. reflexivity.
Defined.

(** C6, as stated, fails: with a generator that repeats itself, two calls
    of [Request] use the same inbox. *)
Lemma inboxes_always_distinct_refuted :
  ~ inboxes_always_distinct Repeating.env.
Proof.
  intros H.
  refine (H Scenario.running _ _ "q" [] (Some Sample.f1) _ _
            "_INBOX.xxx" "_INBOX.xxx" _ eq_refl eq_refl eq_refl eq_refl
            eq_refl).
  vm_compute. by eexists.
Qed.

(** C9.  [OnConnect] writes the one callback field and nothing else: the
    field then holds the function just given, so a second call replaces
    what the first stored, and only the later function is ever called.
    The client that [Connect] hands to the broker, and keeps when accepted,
    carries the adapter's own closure as its connected-callback; when that
    closure is called it calls the function found in the callback field at
    that moment, and does nothing when the field is nil. *)
Theorem on_connect_single_slot (UUID : Type) (env : Env UUID) (s : State)
    (f g : option Func) :
  wf s ->
  (exists s1,
     OnConnect g s = Ret tt s1 /\
     connectedCallback (adapter s1) = g /\
     client (adapter s1) = client (adapter s) /\
     subscriptions (adapter s1) = subscriptions (adapter s) /\
     logger (adapter s1) = logger (adapter s) /\
     heap s1 = heap s /\ trace s1 = trace s /\
     (OnConnect f ;; OnConnect g)%go s = Ret tt s1 /\
     exists s2,
       run_ConnHandler connect_func s1 = Ret tt s2 /\
       trace s2 = trace s ++ match g with
                             | Some cb => [EvConnected cb]
                             | None => []
                             end /\
       adapter s2 = adapter s1 /\ heap s2 = heap s1) /\
  (exists r s' rest,
     Connect env s = Ret r s' /\
     trace s' = trace s ++
       [EvNewClient; EvConnect (connect_client s) (connect_info s)] ++ rest /\
     nats.ConnectedCallback (connect_client s) = Some connect_func /\
     client (adapter s') =
       match r with
       | None => Some (connect_client s)
       | Some _ => client (adapter s)
       end) /\
  run_ConnHandler connect_func s =
    Ret tt match connectedCallback (adapter s) with
           | Some cb => with_trace (trace s ++ [EvConnected cb]) s
           | None => s
           end.
Proof.
  intros Hwf. split; [|split].
  - set (s1 := with_adapter (with_connectedCallback g (adapter s)) s).
    exists s1. do 8 (split; [reflexivity|]).
    destruct g as [cb|].
    + eexists. split; [apply (connected_set s1 cb); reflexivity|].
      by repeat split.
    + exists s1. split; [apply (connected_unset s1); reflexivity|].
      split; [|by split]. cbn. by rewrite app_nil_r.
  - destruct (Connect_result env (dialled s)) as [e|] eqn:E.
    + exists (Some e). eexists. exists []. split; [by apply connect_refused|].
      by cbn.
    + destruct (connect_accepted env s Hwf E) as (s' & Hr & Ha & _ & Ht & _).
      exists None, s'. eexists. split; [exact Hr|]. split.
      * rewrite Ht. unfold dialled. rewrite <- app_assoc. reflexivity.
      * split; [reflexivity|]. by rewrite Ha.
  - destruct (connectedCallback (adapter s)) as [cb|] eqn:Hf.
    + by apply connected_set.
    + by apply connected_unset.
Qed.

Lemma on_connect_single_slot_witness :
  exists s1 s2,
    (OnConnect (Some Sample.f1) ;; OnConnect (Some Sample.f2))%go
      Scenario.running = Ret tt s1 /\
    connectedCallback (adapter s1) = Some Sample.f2 /\
    run_ConnHandler connect_func s1 = Ret tt s2 /\
    trace s2 = trace Scenario.running ++ [EvConnected Sample.f2].
Proof.
  destruct (on_connect_single_slot nat Sample.ok Scenario.running
              (Some Sample.f1) (Some Sample.f2))
    as ((s1 & _ & H1 & _ & _ & _ & _ & _ & H2 & s2 & H3 & H4 & _) & _).
  - vm_compute. repeat constructor.
  - exists s1, s2. split; [exact H2|]. split; [exact H1|].
    split; [exact H3|exact H4].
Defined.

(** C10.  With a client, whatever pair of id and error the broker's
    subscribe call returns, [Subscribe] and [RespondToChannel] return no
    error, the new subscription is in the stored sequence and its id is the
    id of that pair.  [Request] goes on to publish after its inner
    [Subscribe] and returns the result of the publish alone. *)
Theorem subscribe_error_discarded (UUID : Type) (env : Env UUID) (s : State)
    (c : nats.Client) (subj : string) (h : option Func)
    (sid : Z) (err : option error) :
  client (adapter s) = Some c ->
  let p := length (heap s) in
  Subscribe_result env (trace s ++ [EvSubscribe c subj (subscribeInNats_func p)])
    = (sid, err) ->
  (exists s',
     Subscribe env subj h s = Ret None s' /\
     subscriptions (adapter s') = subscriptions (adapter s) ++ [p] /\
     heap s' = heap s ++
       [{| subject := subj; callback := h; reply := None; id := sid |}]) /\
  (exists s',
     RespondToChannel env subj h s = Ret None s' /\
     subscriptions (adapter s') = subscriptions (adapter s) ++ [p] /\
     heap s' = heap s ++
       [{| subject := subj; callback := None; reply := h; id := sid |}]) /\
  (forall (uuid : UUID) (to : string) (message : bytes),
     NewV4_result env (trace s ++ [EvNewV4]) = inl uuid ->
     exists s',
       Request env to message h s =
         Ret (PublishWithReplyTo_result env (trace s')) s' /\
       last (trace s') =
         Some (EvPublishWithReplyTo c to (Sprintf_inbox env uuid) message)).
Proof.
  intros Hc p Hsub. split; [|split].
  - eexists. split; [by apply Subscribe_conn|]. cbn. fold p. by rewrite Hsub.
  - eexists. split; [by apply RespondToChannel_conn|]. cbn. fold p.
    by rewrite Hsub.
  - intros uuid to message Hu.
    rewrite (Request_conn env s c to message h uuid Hc Hu).
    match goal with
    | |- exists s', Ret _ ?x = _ /\ _ => exists x
    end.
    split; [reflexivity|]. cbn. by rewrite last_snoc.
Qed.

Lemma subscribe_error_discarded_witness :
  exists s',
    Subscribe (Sample.env false true) "d" (Some Sample.f1) Scenario.running
      = Ret None s' /\
    subscriptions (adapter s') = [0; 1; 2; 3] /\
    heap s' = heap Scenario.running ++
      [{| subject := "d"; callback := Some Sample.f1; reply := None; id := 0 |}].
Proof.
  apply (subscribe_error_discarded nat (Sample.env false true) Scenario.running
           (connect_client Scenario.waiting) "d" (Some Sample.f1)
           0%Z (Some (lib_error 2))).
  - reflexivity.
  - reflexivity.
Defined.

(** C8 (as amended).  In every state that a run of the adapter reaches,
    the subscriptions ever allocated are, one for one and in order, those
    made by the allocating steps of the run: each carries exactly the
    subject and the handler its call was given ([Subscribe] and [Request]
    fill the callback, [RespondToChannel] the reply handler) and nothing in
    the other place.  So every pointer of the stored sequence leads to a
    subscription that never has both handlers, and that has exactly one
    precisely when the handler passed to the call that made it was not
    nil.  The subscription that [Subscribe] or [RespondToChannel] appends
    keeps what it was given through every later run. *)
Theorem stored_modes (UUID : Type) (env : Env UUID) (xs : list Step)
    (s : State) :
  run env xs boot = Ret tt s ->
  (exists origins : list Step,
     origins `sublist_of` xs /\
     Forall2 made_by origins (map mode_of (heap s))) /\
  Forall (fun o => exists v,
            o = Some v /\
            both_modes v = false /\
            exists x, In x xs /\ made_by x (mode_of v) /\
                      one_mode v = handler_given x)
         (stored s) /\
  (forall subj h, exists e s1,
     Subscribe env subj h s = Ret e s1 /\
     last (subscriptions (adapter s1)) = Some (length (heap s)) /\
     forall ys s2, run env ys s1 = Ret tt s2 ->
       exists v, heap s2 !! length (heap s) = Some v /\
         subject v = subj /\ callback v = h /\ reply v = None) /\
  (forall subj h, exists e s1,
     RespondToChannel env subj h s = Ret e s1 /\
     last (subscriptions (adapter s1)) = Some (length (heap s)) /\
     forall ys s2, run env ys s1 = Ret tt s2 ->
       exists v, heap s2 !! length (heap s) = Some v /\
         subject v = subj /\ reply v = h /\ callback v = None).
Proof.
  intros Hrun.
  destruct (run_heap env xs boot s wf_boot Hrun) as (Hwf & _).
  destruct (run_origin env xs boot s wf_boot Hrun)
    as (origins & more & Hsub & Hm & Hf).
  cbn in Hm. rewrite <- Hm in Hf.
  split; [by exists origins|]. split; [|split].
  - unfold stored. apply Forall_map. eapply Forall_impl; [exact Hwf|].
    cbn. intros p Hp.
    destruct (lookup_lt_is_Some_2 _ _ Hp) as [v Hv]. exists v.
    split; [exact Hv|].
    assert (L : map mode_of (heap s) !! p = Some (mode_of v)).
    { change (map mode_of (heap s)) with (fmap (M:=list) mode_of (heap s)).
      by rewrite list_lookup_fmap, Hv. }
    destruct (Forall2_lookup_r _ _ _ _ _ Hf L) as (x & Hx & Hmade).
    destruct (made_by_modes x v Hmade) as (Hb & Ho).
    split; [exact Hb|]. exists x. split; [|by split].
    apply list_elem_of_In. eapply elem_of_sublist; [|exact Hsub].
    by eapply list_elem_of_lookup_2.
  - intros subj h.
    destruct (Subscribe env subj h s) as [e s1|] eqn:E.
    + destruct (enqueue_allocates env s s1 subj h false e E Hwf)
        as (Hwf1 & v & Hv & Hmode).
      exists e, s1. split; [reflexivity|]. split.
      * destruct (client (adapter s)) as [c|] eqn:Hc.
        -- rewrite (Subscribe_conn env s c) in E by exact Hc.
           injection E as _ <-. cbn. by rewrite last_snoc.
        -- rewrite (Subscribe_nil env s) in E by exact Hc.
           injection E as _ <-. cbn. by rewrite last_snoc.
      * intros ys s2 Hys.
        destruct (run_keeps_modes env ys s1 s2 _ v Hwf1 Hys Hv)
          as (v' & Hv' & Hm').
        exists v'. split; [exact Hv'|]. rewrite Hmode in Hm'.
        unfold mode_of in Hm'. by injection Hm'.
    + destruct (client (adapter s)) as [c|] eqn:Hc.
      * rewrite (Subscribe_conn env s c) in E by exact Hc. discriminate.
      * rewrite (Subscribe_nil env s) in E by exact Hc. discriminate.
  - intros subj h.
    destruct (RespondToChannel env subj h s) as [e s1|] eqn:E.
    + destruct (enqueue_allocates env s s1 subj h true e E Hwf)
        as (Hwf1 & v & Hv & Hmode).
      exists e, s1. split; [reflexivity|]. split.
      * destruct (client (adapter s)) as [c|] eqn:Hc.
        -- rewrite (RespondToChannel_conn env s c) in E by exact Hc.
           injection E as _ <-. cbn. by rewrite last_snoc.
        -- rewrite (RespondToChannel_nil env s) in E by exact Hc.
           injection E as _ <-. cbn. by rewrite last_snoc.
      * intros ys s2 Hys.
        destruct (run_keeps_modes env ys s1 s2 _ v Hwf1 Hys Hv)
          as (v' & Hv' & Hm').
        exists v'. split; [exact Hv'|]. rewrite Hmode in Hm'.
        unfold mode_of in Hm'. by injection Hm'.
    + destruct (client (adapter s)) as [c|] eqn:Hc.
      * rewrite (RespondToChannel_conn env s c) in E by exact Hc.
        discriminate.
      * rewrite (RespondToChannel_nil env s) in E by exact Hc. discriminate.
Qed.

Lemma stored_modes_witness :
  map mode_of (heap Scenario3.mixed) =
    [("b", None, None); ("b", None, Some Sample.f2)] /\
  Forall (fun o => exists v, o = Some v /\ both_modes v = false)
         (stored Scenario3.mixed).
Proof.
  destruct (stored_modes nat Sample.ok
              [DoSubscribe "b" None; DoRespondToChannel "b" (Some Sample.f2)]
              Scenario3.mixed eq_refl) as ((origins & Hsub & Hf) & Hst & _).
  split; [reflexivity|].
  eapply Forall_impl; [exact Hst|]. cbn.
  intros o (v & Hv & Hb & _). by exists v.
Defined.

(** C8, as stated, fails: [Subscribe] with a nil callback stores a
    subscription that has neither handler. *)
Lemma always_one_mode_refuted : ~ always_one_mode Sample.ok.
Proof.
  intros H.
  specialize (H _ (ex_intro _ [DoSubscribe "s" None] eq_refl)).
  cbn in H. inversion H as [|? ? (v & Hv & Hone) _]; subst.
  injection Hv as <-. discriminate Hone.
Qed.

(** * Further properties of the adapter *)

(** ** Configuration and logger on their way to the broker *)

(** X1.  [Configure] only writes the four connection fields: it makes no
    call and leaves the client, the stored subscriptions, the callback and
    the logger alone.  The next [Connect] then opens the connection with
    the address "host:port" (the port in decimal) and with the configured
    user and password, whatever had been configured before. *)
Theorem configure_then_connect (UUID : Type) (env : Env UUID) (s : State)
    (h : string) (p : Z) (u pw : string) :
  wf s ->
  exists s1,
    Configure h p u pw s = Ret tt s1 /\
    trace s1 = trace s /\ heap s1 = heap s /\
    client (adapter s1) = client (adapter s) /\
    subscriptions (adapter s1) = subscriptions (adapter s) /\
    connectedCallback (adapter s1) = connectedCallback (adapter s) /\
    logger (adapter s1) = logger (adapter s) /\
    exists r s2 c rest,
      Connect env s1 = Ret r s2 /\
      trace s2 = trace s ++
        [EvNewClient;
         EvConnect c {| nats.Addr := String.append h (String.append ":" (Sprintf_d p));
                        nats.Username := u; nats.Password := pw |}] ++ rest.
Proof.
  intros Hwf.
  set (s1 := with_adapter (with_config h p u pw (adapter s)) s).
  assert (Hwf1 : wf s1) by exact Hwf.
  exists s1. do 7 (split; [reflexivity|]).
  destruct (Connect_result env (dialled s1)) as [e|] eqn:E.
  - exists (Some e). eexists. exists (connect_client s1), [].
    split; [by apply connect_refused|]. reflexivity.
  - destruct (connect_accepted env s1 Hwf1 E) as (s2 & Hr & _ & _ & Ht & _).
    exists None, s2, (connect_client s1). eexists.
    split; [exact Hr|]. rewrite Ht. unfold dialled. rewrite <- app_assoc.
    reflexivity.
Qed.

Lemma configure_then_connect_witness :
  exists s1 r s2 c rest,
    Configure "nats.local" 4222 "me" "pw" Scenario.running = Ret tt s1 /\
    Connect Sample.ok s1 = Ret r s2 /\
    trace s2 = trace Scenario.running ++
      [EvNewClient;
       EvConnect c {| nats.Addr := "nats.local:4222";
                      nats.Username := "me"; nats.Password := "pw" |}] ++ rest.
Proof.
  destruct (configure_then_connect nat Sample.ok Scenario.running
              "nats.local" 4222 "me" "pw")
    as (s1 & H1 & _ & _ & _ & _ & _ & _ & r & s2 & c & rest & H2 & H3).
  - vm_compute. repeat constructor.
  - exists s1, r, s2, c, rest. split; [exact H1|]. split; [exact H2|exact H3].
Defined.

(** X2.  [SetLogger] only writes the logger field: the client the adapter
    currently holds is not touched.  The client that the next [Connect]
    hands to the broker carries the logger when it is not nil, and is left
    with what [NewClient] gave it when the logger is nil. *)
Theorem logger_reaches_next_client (UUID : Type) (env : Env UUID) (s : State)
    (l : option Logger) :
  wf s ->
  exists s1,
    SetLogger l s = Ret tt s1 /\
    trace s1 = trace s /\
    client (adapter s1) = client (adapter s) /\
    exists r s2 c info rest,
      Connect env s1 = Ret r s2 /\
      trace s2 = trace s ++ [EvNewClient; EvConnect c info] ++ rest /\
      nats.Logger c = l /\
      client (adapter s2) =
        match r with
        | None => Some c
        | Some _ => client (adapter s)
        end.
Proof.
  intros Hwf.
  set (s1 := with_adapter (with_logger l (adapter s)) s).
  assert (Hwf1 : wf s1) by exact Hwf.
  exists s1. do 3 (split; [reflexivity|]).
  destruct (Connect_result env (dialled s1)) as [e|] eqn:E.
  - exists (Some e). eexists. exists (connect_client s1), (connect_info s1), [].
    split; [by apply connect_refused|]. by cbn.
  - destruct (connect_accepted env s1 Hwf1 E) as (s2 & Hr & Ha & _ & Ht & _).
    exists None, s2, (connect_client s1), (connect_info s1). eexists.
    split; [exact Hr|]. split.
    + rewrite Ht. unfold dialled. rewrite <- app_assoc. reflexivity.
    + split; [reflexivity|]. by rewrite Ha.
Qed.

Lemma logger_reaches_next_client_witness :
  exists s1 r s2 c info rest,
    SetLogger (Some (LoggerAt 9)) Scenario.running = Ret tt s1 /\
    client (adapter s1) = client (adapter Scenario.running) /\
    Connect Sample.ok s1 = Ret r s2 /\
    trace s2 = trace Scenario.running ++ [EvNewClient; EvConnect c info] ++ rest /\
    nats.Logger c = Some (LoggerAt 9).
Proof.
  destruct (logger_reaches_next_client nat Sample.ok Scenario.running
              (Some (LoggerAt 9)))
    as (s1 & H1 & _ & H2 & r & s2 & c & info & rest & H3 & H4 & H5 & _).
  - vm_compute. repeat constructor.
  - exists s1, r, s2, c, info, rest. repeat split; assumption.
Defined.

(** ** Calls that go straight to the broker *)

(** X3.  With a client, [Publish] makes one publish call on it, with the
    subject and message it was given, and returns what the broker returns;
    [Ping] makes one ping call and returns the broker's answer.  Neither
    changes the adapter or the subscriptions. *)
Theorem publish_and_ping_delegate (UUID : Type) (env : Env UUID) (s : State)
    (c : nats.Client) (subj : string) (message : bytes) :
  client (adapter s) = Some c ->
  (exists s',
     Publish env subj message s = Ret (Publish_result env (trace s')) s' /\
     trace s' = trace s ++ [EvPublish c subj message] /\
     adapter s' = adapter s /\ heap s' = heap s) /\
  (exists s',
     Ping env s = Ret (Ping_result env (trace s')) s' /\
     trace s' = trace s ++ [EvPing c] /\
     adapter s' = adapter s /\ heap s' = heap s).
Proof.
  intros Hc. split.
  - rewrite (Publish_conn env s c) by exact Hc.
    match goal with |- exists s', Ret _ ?x = _ /\ _ => exists x end.
    by repeat split.
  - rewrite (Ping_conn env s c) by exact Hc.
    match goal with |- exists s', Ret _ ?x = _ /\ _ => exists x end.
    by repeat split.
Qed.

Lemma publish_and_ping_delegate_witness :
  exists s',
    Publish Sample.ok "news" [Byte.x68] Scenario.running = Ret None s' /\
    trace s' = trace Scenario.running ++
      [EvPublish (connect_client Scenario.waiting) "news" [Byte.x68]].
Proof.
  destruct (publish_and_ping_delegate nat Sample.ok Scenario.running
              (connect_client Scenario.waiting) "news" [Byte.x68])
    as [(s' & H1 & H2 & _) _].
  - reflexivity.
  - exists s'. split; [exact H1|exact H2].
Defined.

(** X4.  A refused [Connect] on a connected adapter does not disturb the
    connection it had: [Publish] and [Ping] afterwards still go to the
    earlier client. *)
Theorem refused_reconnect_keeps_client (UUID : Type) (env : Env UUID)
    (s : State) (c : nats.Client) (e : error) (subj : string)
    (message : bytes) :
  client (adapter s) = Some c ->
  Connect_result env (dialled s) = Some e ->
  exists s1,
    Connect env s = Ret (Some e) s1 /\
    (exists s2,
       Publish env subj message s1 = Ret (Publish_result env (trace s2)) s2 /\
       trace s2 = dialled s ++ [EvPublish c subj message]) /\
    (exists s2,
       Ping env s1 = Ret (Ping_result env (trace s2)) s2 /\
       trace s2 = dialled s ++ [EvPing c]).
Proof.
  intros Hc He. eexists. split; [by apply connect_refused|]. split.
  - rewrite (Publish_conn env _ c) by exact Hc.
    match goal with |- exists s', Ret _ ?x = _ /\ _ => exists x end.
    by split.
  - rewrite (Ping_conn env _ c) by exact Hc.
    match goal with |- exists s', Ret _ ?x = _ /\ _ => exists x end.
    by split.
Qed.

Lemma refused_reconnect_keeps_client_witness :
  exists s1 s2,
    Connect (Sample.env true false) Scenario.running =
      Ret (Some (lib_error 1)) s1 /\
    Publish (Sample.env true false) "news" [] s1 = Ret None s2 /\
    trace s2 = dialled Scenario.running ++
      [EvPublish (connect_client Scenario.waiting) "news" []].
Proof.
  destruct (refused_reconnect_keeps_client nat (Sample.env true false)
              Scenario.running (connect_client Scenario.waiting)
              (lib_error 1) "news" [])
    as (s1 & H1 & (s2 & H2 & H3) & _).
  - reflexivity.
  - reflexivity.
  - exists s1, s2. split; [exact H1|]. split; [exact H2|exact H3].
Defined.

(** X5.  When gouuid fails to deliver an identifier, [Request] returns that
    error and stops: no subscription is allocated or stored, nothing is
    subscribed and nothing is published. *)
Theorem request_without_identifier (UUID : Type) (env : Env UUID) (s : State)
    (c : nats.Client) (subj : string) (message : bytes) (cb : option Func)
    (err : error) :
  client (adapter s) = Some c ->
  NewV4_result env (trace s ++ [EvNewV4]) = inr err ->
  exists s',
    Request env subj message cb s = Ret (Some err) s' /\
    adapter s' = adapter s /\ heap s' = heap s /\
    trace s' = trace s ++ [EvNewV4].
Proof.
  intros Hc Hu. eexists.
  split; [by apply (Request_no_inbox env s c)|]. by cbn.
Qed.

Lemma request_without_identifier_witness :
  let env := {| Connect_result := Connect_result Sample.ok;
                Subscribe_result := Subscribe_result Sample.ok;
                Publish_result := Publish_result Sample.ok;
                PublishWithReplyTo_result := PublishWithReplyTo_result Sample.ok;
                Ping_result := Ping_result Sample.ok;
                NewV4_result := fun _ => inr (lib_error 3);
                UnixNano := UnixNano Sample.ok;
                Reply_result := Reply_result Sample.ok;
                UUID_String := UUID_String Sample.ok |} in
  exists s',
    Request env "q" [] (Some Sample.f1) Scenario.running
      = Ret (Some (lib_error 3)) s' /\
    adapter s' = adapter Scenario.running /\
    heap s' = heap Scenario.running /\
    trace s' = trace Scenario.running ++ [EvNewV4].
Proof.
  intros env.
  apply (request_without_identifier nat env Scenario.running
           (connect_client Scenario.waiting) "q" [] (Some Sample.f1)
           (lib_error 3)).
  - reflexivity.
  - reflexivity.
Defined.

(** ** What stays as it is along a run *)

(** X6.  A subscription made by [Subscribe] with a callback [f] stays in
    callback mode whatever the adapter does afterwards: a message delivered
    to its handler calls [f] with the payload bytes and nothing else, also
    when the message carries a reply-to address: nothing is published. *)
Theorem callback_mode_dispatch (UUID : Type) (env : Env UUID) (s s2 : State)
    (subj : string) (f : Func) (xs : list Step) (msg : nats.Message) :
  wf s ->
  (_ <- Subscribe env subj (Some f) ;; run env xs) s = Ret tt s2 ->
  run_MsgHandler env (subscribeInNats_func (length (heap s))) msg s2 =
    Ret tt
      (with_trace
         (trace s2 ++
            [EvCallback f (list_byte_of_string (nats.Payload msg))]) s2).
Proof.
  intros Hwf. unfold bind at 1.
  destruct (Subscribe env subj (Some f) s) as [e s1|] eqn:E; [|discriminate].
  intros Hrun.
  destruct (enqueue_allocates env s s1 subj (Some f) false e E Hwf)
    as (Hwf1 & v & Hv & Hm).
  destruct (run_keeps_modes env xs s1 s2 _ v Hwf1 Hrun Hv) as (v' & Hv' & Hm').
  rewrite Hm in Hm'. unfold mode_of in Hm'. injection Hm' as _ Hcb Hre.
  by apply (handler_callback env s2 _ v').
Qed.

Lemma callback_mode_dispatch_witness :
  run_MsgHandler Sample.ok (subscribeInNats_func 2) Scenario2.note
    Scenario.running =
  Ret tt
    (with_trace
       (trace Scenario.running ++
          [EvCallback Sample.f1 [Byte.x68; Byte.x69]]) Scenario.running).
Proof.
  apply (callback_mode_dispatch nat Sample.ok
           match Connect Sample.ok Scenario.waiting with
           | Ret _ s => s
           | Panic => boot
           end
           Scenario.running "c" Sample.f1 [] Scenario2.note).
  - vm_compute. repeat constructor.
  - reflexivity.
Defined.

(** X7.  A subscription made with a nil handler, by [Subscribe] or by
    [RespondToChannel], has no reply handler, so its messages go to the
    callback, which is nil: delivering any message to it panics, whatever
    the adapter did in between. *)
Theorem nil_handler_panics (UUID : Type) (env : Env UUID) (s s2 : State)
    (subj : string) (as_reply : bool) (xs : list Step) (msg : nats.Message) :
  wf s ->
  (_ <- (if as_reply then RespondToChannel env subj None
         else Subscribe env subj None) ;;
   run env xs) s = Ret tt s2 ->
  run_MsgHandler env (subscribeInNats_func (length (heap s))) msg s2 = Panic.
Proof.
  intros Hwf. unfold bind at 1.
  destruct ((if as_reply then RespondToChannel env subj None
             else Subscribe env subj None) s) as [e s1|] eqn:E; [|discriminate].
  intros Hrun.
  destruct (enqueue_allocates env s s1 subj None as_reply e E Hwf)
    as (Hwf1 & v & Hv & Hm).
  destruct (run_keeps_modes env xs s1 s2 _ v Hwf1 Hrun Hv) as (v' & Hv' & Hm').
  rewrite Hm in Hm'. unfold mode_of in Hm'.
  apply (handler_nil_panics env s2 _ v'); [exact Hv'| |];
    destruct as_reply; by injection Hm'.
Qed.

Lemma nil_handler_panics_witness :
  run_MsgHandler Sample.ok (subscribeInNats_func 3) Scenario2.note
    match run Sample.ok [DoRespondToChannel "d" None; DoPing] Scenario.running
    with
    | Ret _ s => s
    | Panic => boot
    end = Panic.
Proof.
  apply (nil_handler_panics nat Sample.ok Scenario.running _ "d" true [DoPing]
           Scenario2.note).
  - vm_compute. repeat constructor.
  - reflexivity.
Defined.

(** X8.  No step takes the client away: once the adapter holds a client it
    holds one after every run, be it calls of its methods, refused or
    accepted reconnects, or calls from the broker. *)
Theorem client_never_lost (UUID : Type) (env : Env UUID) (xs : list Step)
    (s s' : State) :
  wf s ->
  run env xs s = Ret tt s' ->
  is_Some (client (adapter s)) ->
  is_Some (client (adapter s')).
Proof.
  intros Hwf Hrun [c Hc].
  destruct (run_client env xs s s' Hwf Hrun) as (_ & H).
  destruct (client (adapter s')) as [c'|]; [by eexists|].
  destruct (H eq_refl) as [Hn _]. rewrite Hc in Hn. discriminate.
Qed.

Lemma client_never_lost_witness :
  is_Some (client (adapter
    match run (Sample.env true false)
            [DoConnect; DoUnsubscribeAll; DoConfigure "x" 1 "" ""; DoConnect]
            Scenario.running with
    | Ret _ s => s
    | Panic => boot
    end)).
Proof.
  apply (client_never_lost nat (Sample.env true false)
           [DoConnect; DoUnsubscribeAll; DoConfigure "x" 1 "" ""; DoConnect]
           Scenario.running).
  - vm_compute. repeat constructor.
  - reflexivity.
  - vm_compute. by eexists.
Defined.

(** X9.  Subscriptions are never rewritten: along any run an allocated
    subscription keeps its subject, its callback and its reply handler; only
    its id may change. *)
Theorem subscriptions_keep_their_mode (UUID : Type) (env : Env UUID)
    (xs : list Step) (s s' : State) (p : ptr) (v : Subscription) :
  wf s ->
  run env xs s = Ret tt s' ->
  heap s !! p = Some v ->
  exists v',
    heap s' !! p = Some v' /\
    subject v' = subject v /\ callback v' = callback v /\ reply v' = reply v.
Proof.
  intros Hwf Hrun Hp.
  destruct (run_keeps_modes env xs s s' p v Hwf Hrun Hp) as (v' & Hv' & Hm).
  exists v'. split; [exact Hv'|]. unfold mode_of in Hm.
  by injection Hm.
Qed.

Lemma subscriptions_keep_their_mode_witness :
  exists v',
    heap match run Sample.ok [DoConnect; DoUnsubscribeAll] Scenario.running with
         | Ret _ s => s
         | Panic => boot
         end !! 1 = Some v' /\
    subject v' = "b" /\ callback v' = None /\ reply v' = Some Sample.f2.
Proof.
  apply (subscriptions_keep_their_mode nat Sample.ok
           [DoConnect; DoUnsubscribeAll] Scenario.running _ 1
           {| subject := "b"; callback := None; reply := Some Sample.f2;
              id := 5 |}).
  - vm_compute. repeat constructor.
  - reflexivity.
  - reflexivity.
Defined.

(** ** The stored sequence *)

(** X10.  The stored sequence changes in two ways only.  [Subscribe] and
    [RespondToChannel] append the pointer to the subscription they have
    just allocated, and so does [Request] when it gets as far as
    subscribing; [UnsubscribeAll] on an adapter with a client empties the
    sequence.  Every other step, and [UnsubscribeAll] without a client,
    leaves it as it is: no entry is ever removed or moved on its own. *)
Theorem stored_sequence_steps (UUID : Type) (env : Env UUID) (x : Step)
    (s s' : State) :
  wf s ->
  step env x s = Ret tt s' ->
  let subs := subscriptions (adapter s) in
  let grown := subs ++ [length (heap s)] in
  subscriptions (adapter s') =
    match x with
    | DoSubscribe _ _ | DoRespondToChannel _ _ => grown
    | DoRequest _ _ _ =>
        match client (adapter s), NewV4_result env (trace s ++ [EvNewV4]) with
        | Some _, inl _ => grown
        | _, _ => subs
        end
    | DoUnsubscribeAll =>
        match client (adapter s) with
        | Some _ => []
        | None => subs
        end
    | _ => subs
    end.
Proof.
  intros Hwf. destruct x; cbn [step].
  - go. by intros [= <-].
  - unfold bind, Connect.
    destruct (Connect_result env (dialled s)) as [e|] eqn:E.
    + rewrite (connect_refused env s e E). cbn. by intros [= <-].
    + destruct (connect_accepted env s Hwf E) as (s1 & -> & Ha & _).
      cbn. intros [= <-]. by rewrite Ha.
  - go. by intros [= <-].
  - go. by intros [= <-].
  - unfold bind. destruct (client (adapter s)) as [c|] eqn:Hc.
    + rewrite (Subscribe_conn env s c) by exact Hc. cbn. by intros [= <-].
    + rewrite (Subscribe_nil env s) by exact Hc. cbn. by intros [= <-].
  - unfold bind. destruct (client (adapter s)) as [c|] eqn:Hc.
    + rewrite (UnsubscribeAll_conn s c Hc Hwf). cbn. by intros [= <-].
    + rewrite (UnsubscribeAll_nil s Hc). cbn. by intros [= <-].
  - unfold bind. destruct (client (adapter s)) as [c|] eqn:Hc.
    + rewrite (Publish_conn env s c) by exact Hc. cbn. by intros [= <-].
    + rewrite (Publish_nil env s) by exact Hc. cbn. by intros [= <-].
  - unfold bind. destruct (client (adapter s)) as [c|] eqn:Hc.
    + destruct (NewV4_result env (trace s ++ [EvNewV4])) as [u|err] eqn:Hu.
      * rewrite (Request_conn env s c _ _ _ u Hc Hu). cbn. by intros [= <-].
      * rewrite (Request_no_inbox env s c _ _ _ err Hc Hu). cbn.
        by intros [= <-].
    + rewrite (Request_nil env s) by exact Hc. cbn. by intros [= <-].
  - unfold bind. destruct (client (adapter s)) as [c|] eqn:Hc.
    + rewrite (RespondToChannel_conn env s c) by exact Hc. cbn.
      by intros [= <-].
    + rewrite (RespondToChannel_nil env s) by exact Hc. cbn. by intros [= <-].
  - unfold bind. destruct (client (adapter s)) as [c|] eqn:Hc.
    + rewrite (Ping_conn env s c) by exact Hc. cbn. by intros [= <-].
    + rewrite (Ping_nil env s) by exact Hc. cbn. by intros [= <-].
  - intros H. destruct (handler_frame env _ _ _ _ H) as (Ha & _).
    by rewrite Ha.
  - destruct h. destruct (connectedCallback (adapter s)) as [f|] eqn:Hf.
    + rewrite (connected_set s f Hf). by intros [= <-].
    + rewrite (connected_unset s Hf). by intros [= <-].
Qed.

Lemma stored_sequence_steps_witness :
  exists s',
    step Sample.ok (DoRequest "q" [] (Some Sample.f1)) Scenario.running
      = Ret tt s' /\
    subscriptions (adapter s') = [0; 1; 2; 3].
Proof.
  eexists. split; [reflexivity|].
  apply (stored_sequence_steps nat Sample.ok
           (DoRequest "q" [] (Some Sample.f1)) Scenario.running).
  - vm_compute. repeat constructor.
  - reflexivity.
Defined.

Lemma length_heap_modes (h h' : list Subscription) :
  map mode_of h' = map mode_of h -> length h' = length h.
Proof.
  intros E. by rewrite <- (length_map mode_of h'), E, length_map.
Qed.

(** Stored pointers are pairwise distinct, and stay so. *)
Lemma step_nodup {UUID} (env : Env UUID) (x : Step) (s s' : State) :
  wf s ->
  NoDup (subscriptions (adapter s)) ->
  step env x s = Ret tt s' ->
  NoDup (subscriptions (adapter s')).
Proof.
  intros Hwf Hnd.
  assert (Hgrow : NoDup (subscriptions (adapter s) ++ [length (heap s)])).
  { apply NoDup_app. split; [exact Hnd|]. split; [|apply NoDup_singleton].
    intros p Hp ->%list_elem_of_singleton.
    unfold wf in Hwf. rewrite Forall_forall in Hwf.
    specialize (Hwf _ Hp). lia. }
  step_cases env s Hwf; try assumption.
  - by rewrite Ha.
  - constructor.
Qed.

Lemma run_nodup {UUID} (env : Env UUID) (xs : list Step) :
  forall s s' : State,
    wf s ->
    NoDup (subscriptions (adapter s)) ->
    run env xs s = Ret tt s' ->
    NoDup (subscriptions (adapter s')).
Proof.
  induction xs as [|x xs IH]; intros s s' Hwf Hnd.
  - cbn. by intros [= <-].
  - cbn [run]. unfold bind at 1.
    destruct (step env x s) as [[] s1|] eqn:E; [|discriminate].
    intros Hrun.
    destruct (step_heap env x s s1 Hwf E) as (Hwf1 & _).
    eapply IH; [exact Hwf1| |exact Hrun].
    exact (step_nodup env x s s1 Hwf Hnd E).
Qed.

(** Every subscribe call on the trace names a pointer into the heap, and
    was made by an adapter that holds a client. *)
Lemma sound_event_later (s s' : State) (e : Event) :
  length (heap s) <= length (heap s') ->
  (is_Some (client (adapter s)) -> is_Some (client (adapter s'))) ->
  sound_event s e -> sound_event s' e.
Proof.
  intros Hl Hc. destruct e as [| | c subj [p] | | | | | | | | |]; cbn; try done.
  intros [H1 H2]. split; [lia|by apply Hc].
Qed.

Lemma step_sound {UUID} (env : Env UUID) (x : Step) (s s' : State) :
  wf s ->
  step env x s = Ret tt s' ->
  exists more,
    trace s' = trace s ++ more /\ Forall (sound_event s') more.
Proof.
  intros Hwf. step_cases env s Hwf.
  - exists []. by rewrite app_nil_r.
  - eexists. split; [reflexivity|]. by repeat constructor.
  - exists ([EvNewClient; EvConnect (connect_client s) (connect_info s); EvNow]
            ++ replay (connect_client s) (heap s) (subscriptions (adapter s))).
    split.
    + rewrite Ht. unfold dialled, replay. by rewrite <- !app_assoc.
    + apply Forall_app. split; [by repeat constructor|].
      unfold replay. apply Forall_map.
      eapply Forall_impl; [exact Hwf|]. cbn. intros p Hp.
      rewrite (length_heap_modes _ _ Hh), Ha. split; [exact Hp|by eexists].
  - exists []. by rewrite app_nil_r.
  - exists []. by rewrite app_nil_r.
  - eexists. split; [reflexivity|]. constructor; [|constructor]. cbn.
    rewrite length_app. cbn. split; [lia|by eexists].
  - exists []. by rewrite app_nil_r.
  - eexists. split; [reflexivity|]. apply Forall_map.
    by apply Forall_true.
  - exists []. by rewrite app_nil_r.
  - eexists. split; [reflexivity|]. by repeat constructor.
  - exists []. by rewrite app_nil_r.
  - exists [EvNewV4;
            EvSubscribe c (Sprintf_inbox env u)
              (subscribeInNats_func (length (heap s)));
            EvPublishWithReplyTo c subj (Sprintf_inbox env u) message].
    split; [by rewrite <- !app_assoc|].
    constructor; [done|]. constructor; [|by repeat constructor]. cbn.
    rewrite length_app. cbn. split; [lia|by eexists].
  - eexists. split; [reflexivity|]. by repeat constructor.
  - exists []. by rewrite app_nil_r.
  - eexists. split; [reflexivity|]. constructor; [|constructor]. cbn.
    rewrite length_app. cbn. split; [lia|by eexists].
  - exists []. by rewrite app_nil_r.
  - eexists. split; [reflexivity|]. by repeat constructor.
  - exists []. by rewrite app_nil_r.
  - exists []. by rewrite app_nil_r.
  - eexists. split; [by rewrite <- app_assoc|]. by repeat constructor.
  - eexists. split; [reflexivity|]. by repeat constructor.
  - eexists. split; [reflexivity|]. by repeat constructor.
  - exists []. by rewrite app_nil_r.
Qed.

Lemma run_sound {UUID} (env : Env UUID) (xs : list Step) :
  forall s s' : State,
    wf s ->
    Forall (sound_event s) (trace s) ->
    run env xs s = Ret tt s' ->
    Forall (sound_event s') (trace s').
Proof.
  induction xs as [|x xs IH]; intros s s' Hwf Hs.
  - cbn. by intros [= <-].
  - cbn [run]. unfold bind at 1.
    destruct (step env x s) as [[] s1|] eqn:E; [|discriminate].
    intros Hrun.
    destruct (step_heap env x s s1 Hwf E) as (Hwf1 & m & Hm & _).
    destruct (step_client env x s s1 Hwf E) as (_ & Hc & _).
    destruct (step_sound env x s s1 Hwf E) as (more & Ht & Hmore).
    eapply IH; [exact Hwf1| |exact Hrun].
    rewrite Ht. apply Forall_app. split; [|exact Hmore].
    eapply Forall_impl; [exact Hs|]. intros e. apply sound_event_later.
    + rewrite <- (length_map mode_of (heap s1)), Hm, length_app, length_map.
      lia.
    + intros Hsome. destruct Hc as [-> | [_ H]]; assumption.
Qed.

(** The modes found in the heap of a reachable state. *)
Lemma heap_modes {UUID} (env : Env UUID) (xs : list Step) (s : State)
    (p : ptr) (v : Subscription) :
  run env xs boot = Ret tt s ->
  heap s !! p = Some v ->
  both_modes v = false /\
  (forallb handler_given xs = true -> one_mode v = true).
Proof.
  intros Hrun Hv.
  destruct (run_heap env xs boot s wf_boot Hrun) as (_ & more & Hm & Hby).
  cbn in Hm.
  assert (Hin : In (mode_of v) more).
  { rewrite <- Hm. apply in_map. apply list_elem_of_In.
    by eapply list_elem_of_lookup_2. }
  rewrite Forall_forall in Hby.
  apply list_elem_of_In in Hin. specialize (Hby _ Hin).
  apply Exists_exists in Hby. destruct Hby as (x & Hx & Hmade).
  assert (Hg : forallb handler_given xs = true -> handler_given x = true).
  { intros Hall. rewrite forallb_forall in Hall. apply Hall.
    by apply list_elem_of_In. }
  unfold both_modes, one_mode, mode_of in *.
  destruct x; cbn in Hmade; try done.
  - injection Hmade as _ -> ->. split; [by destruct cb|].
    intros Hall. specialize (Hg Hall). cbn in Hg. by rewrite Hg.
  - destruct Hmade as [inbox Hmade]. injection Hmade as _ -> ->.
    split; [by destruct cb|].
    intros Hall. specialize (Hg Hall). cbn in Hg. by rewrite Hg.
  - injection Hmade as _ -> ->. split; [done|].
    intros Hall. specialize (Hg Hall). cbn in Hg. by rewrite Hg.
Qed.

(** ** Messages from the broker *)

(** X11.  In a run in which no nil handler was passed to [Subscribe],
    [Request] or [RespondToChannel], every handler that the broker was ever
    given still finds its subscription, with exactly one function in it,
    and the adapter holds a client, also after [UnsubscribeAll] and across
    reconnects.  So when a message is delivered the dispatch code makes
    exactly these calls: the callback with the payload (callback mode), or
    the reply handler followed by a publish of what it returned on the held
    client (reply mode, with a reply-to address), or none (reply mode,
    without one); it never calls a nil function or a nil client.  What the
    application's function does when it is called is outside the model,
    where it is a recorded call that returns. *)
Theorem handlers_stay_callable (UUID : Type) (env : Env UUID)
    (xs : list Step) (s : State) (c : nats.Client) (subj : string)
    (p : ptr) (msg : nats.Message) :
  run env xs boot = Ret tt s ->
  forallb handler_given xs = true ->
  In (EvSubscribe c subj (subscribeInNats_func p)) (trace s) ->
  exists v c0,
    heap s !! p = Some v /\
    one_mode v = true /\
    client (adapter s) = Some c0 /\
    let P := list_byte_of_string (nats.Payload msg) in
    run_MsgHandler env (subscribeInNats_func p) msg s =
      Ret tt
        match reply v, callback v with
        | Some r, _ =>
            if nats.ReplyTo msg =? "" then s
            else
              let t1 := trace s ++ [EvReply r P] in
              with_trace
                (t1 ++ [EvPublish c0 (nats.ReplyTo msg) (Reply_result env t1)])
                s
        | None, Some f => with_trace (trace s ++ [EvCallback f P]) s
        | None, None => s
        end.
Proof.
  intros Hrun Hall Hin.
  assert (Hs : Forall (sound_event s) (trace s)).
  { apply (run_sound env xs boot s wf_boot); [constructor|exact Hrun]. }
  rewrite Forall_forall in Hs. apply list_elem_of_In in Hin.
  specialize (Hs _ Hin). cbn in Hs.
  destruct Hs as [Hp [c0 Hc0]].
  destruct (lookup_lt_is_Some_2 _ _ Hp) as [v Hv].
  destruct (heap_modes env xs s p v Hrun Hv) as (_ & Hone).
  specialize (Hone Hall).
  exists v, c0. do 3 (split; [assumption|]).
  unfold one_mode, has in Hone.
  destruct (reply v) as [r|] eqn:Hr.
  - destruct (String.eqb (nats.ReplyTo msg) "") eqn:Hm.
    + apply String.eqb_eq in Hm. by apply (handler_reply_silent env s p v r).
    + apply String.eqb_neq in Hm.
      by apply (handler_reply_answers env s p v r c0).
  - destruct (callback v) as [f|] eqn:Hf; [|discriminate].
    by apply (handler_callback env s p v f).
Qed.

Lemma handlers_stay_callable_witness :
  let s := match run Sample.ok [DoUnsubscribeAll] Scenario.running with
           | Ret _ s => s
           | Panic => boot
           end in
  run_MsgHandler Sample.ok (subscribeInNats_func 1) Scenario2.note s =
    Ret tt
      (with_trace
         (trace s ++
            [EvReply Sample.f2 [Byte.x68; Byte.x69];
             EvPublish (connect_client Scenario.waiting) "back"
               [Byte.x69; Byte.x68]]) s).
Proof.
  intros s.
  destruct (handlers_stay_callable nat Sample.ok
              [DoConfigure "h" 4222 "u" "p"; DoSubscribe "a" (Some Sample.f1);
               DoRespondToChannel "b" (Some Sample.f2);
               DoConnect; DoSubscribe "c" (Some Sample.f1); DoUnsubscribeAll]
              s (connect_client Scenario.waiting) "b" 1 Scenario2.note)
    as (v & c0 & Hv & _ & Hc & H).
  - reflexivity.
  - reflexivity.
  - vm_compute. tauto.
  - injection Hv as <-. injection Hc as <-. exact H.
Defined.

(** X12.  After [UnsubscribeAll] has emptied the stored sequence, a
    reconnect brings nothing back: the next accepted [Connect] makes no
    subscribe call at all. *)
Theorem nothing_replayed_after_unsubscribe_all (UUID : Type) (env : Env UUID)
    (s s1 : State) :
  wf s ->
  UnsubscribeAll s = Ret None s1 ->
  Connect_result env (dialled s1) = None ->
  exists s2,
    Connect env s1 = Ret None s2 /\
    trace s2 = dialled s1 ++ [EvNow] /\
    subscriptions (adapter s2) = [].
Proof.
  intros Hwf Hu Hok.
  destruct (client (adapter s)) as [c|] eqn:Hc.
  - rewrite (UnsubscribeAll_conn s c Hc Hwf) in Hu. injection Hu as <-.
    match type of Hok with
    | Connect_result _ (dialled ?x) = _ =>
        destruct (connect_accepted env x) as (s2 & Hr & Ha & _ & Ht & _);
        [constructor|exact Hok|]
    end.
    exists s2. split; [exact Hr|]. split.
    + rewrite Ht. reflexivity.
    + by rewrite Ha.
  - rewrite (UnsubscribeAll_nil s Hc) in Hu. discriminate.
Qed.

Lemma nothing_replayed_after_unsubscribe_all_witness :
  exists s1 s2,
    UnsubscribeAll Scenario.running = Ret None s1 /\
    Connect Sample.ok s1 = Ret None s2 /\
    trace s2 = dialled s1 ++ [EvNow].
Proof.
  eexists.
  destruct (nothing_replayed_after_unsubscribe_all nat Sample.ok
              Scenario.running _ ltac:(vm_compute; repeat constructor)
              eq_refl eq_refl) as (s2 & H1 & H2 & _).
  exists s2. split; [reflexivity|]. split; [exact H1|exact H2].
Defined.

(** X13.  A reply is published on the client the adapter holds when the
    message arrives, not on the client the handler was registered with:
    after an accepted reconnect, a message with a reply-to address that
    reaches a reply-mode handler from before is answered through the new
    client. *)
Theorem reply_goes_through_current_client (UUID : Type) (env : Env UUID)
    (s : State) (p : ptr) (v : Subscription) (r : Func) (msg : nats.Message) :
  wf s ->
  heap s !! p = Some v -> reply v = Some r ->
  Connect_result env (dialled s) = None ->
  nats.ReplyTo msg <> "" ->
  exists s1,
    Connect env s = Ret None s1 /\
    let t1 := trace s1 ++
                [EvReply r (list_byte_of_string (nats.Payload msg))] in
    run_MsgHandler env (subscribeInNats_func p) msg s1 =
      Ret tt
        (with_trace
           (t1 ++ [EvPublish (connect_client s) (nats.ReplyTo msg)
                     (Reply_result env t1)]) s1).
Proof.
  intros Hwf Hv Hr Hok Hm.
  destruct (connect_accepted env s Hwf Hok) as (s1 & Hc & Ha & _ & _ & Hh).
  exists s1. split; [exact Hc|].
  assert (L : (mode_of <$> heap s1) !! p = Some (mode_of v)).
  { change (fmap (M:=list) mode_of (heap s1)) with (map mode_of (heap s1)).
    rewrite Hh.
    change (map mode_of (heap s)) with (fmap (M:=list) mode_of (heap s)).
    by rewrite list_lookup_fmap, Hv. }
  rewrite list_lookup_fmap in L.
  destruct (heap s1 !! p) as [v1|] eqn:Hv1; [|discriminate].
  cbn in L. unfold mode_of in L. injection L as _ _ Hr1.
  apply (handler_reply_answers env s1 p v1 r (connect_client s));
    [exact Hv1|congruence|by rewrite Ha|exact Hm].
Qed.

Lemma reply_goes_through_current_client_witness :
  exists s1 s2,
    Connect Sample.ok Scenario.running = Ret None s1 /\
    run_MsgHandler Sample.ok (subscribeInNats_func 1) Scenario2.note s1
      = Ret tt s2 /\
    last (trace s2) =
      Some (EvPublish (connect_client Scenario.running) "back"
              [Byte.x69; Byte.x68]).
Proof.
  destruct (reply_goes_through_current_client nat Sample.ok Scenario.running
              1 {| subject := "b"; callback := None;
                   reply := Some Sample.f2; id := 5 |}
              Sample.f2 Scenario2.note) as (s1 & H1 & H2).
  - vm_compute. repeat constructor.
  - reflexivity.
  - reflexivity.
  - reflexivity.
  - discriminate.
  - exists s1. eexists. split; [exact H1|]. split; [exact H2|].
    injection H1 as <-. reflexivity.
Defined.

(** ** Broker ids after a replay *)

Lemma replay_modes (c : nats.Client) (h h' : list Subscription) (l : list ptr) :
  map mode_of h' = map mode_of h -> replay c h' l = replay c h l.
Proof.
  intros E. unfold replay. apply map_ext. intros p.
  by rewrite (subject_at_mode h h' E).
Qed.

(** The replay loop, with the ids it writes: the [i]-th subscription of a
    duplicate-free list gets the id answered to the [i]-th call, and what
    is not on the list is not written. *)
Lemma range_subscribeInNats_ids {UUID} (env : Env UUID) (l : list ptr) :
  forall (s : State) (c : nats.Client),
    client (adapter s) = Some c ->
    Forall (fun p => p < length (heap s)) l ->
    NoDup l ->
    exists s',
      range l (subscribeInNats env) s = Ret tt s' /\
      (forall i p, l !! i = Some p ->
         exists v, heap s' !! p = Some v /\
           id v = fst (Subscribe_result env
                         (trace s ++ replay c (heap s) (take (S i) l)))) /\
      (forall q, q ∉ l -> heap s' !! q = heap s !! q).
Proof.
  induction l as [|p l IH]; intros s c Hc Hl Hnd.
  - exists s. split; [reflexivity|]. split; [|done].
    intros i p Hi. by rewrite lookup_nil in Hi.
  - inversion Hl as [|? ? Hp Hl']; subst.
    apply NoDup_cons in Hnd. destruct Hnd as [Hnotin Hnd].
    destruct (lookup_lt_is_Some_2 _ _ Hp) as [v Hv].
    cbn [range]. unfold bind at 1.
    rewrite (subscribeInNats_spec env s c p v Hc Hv).
    set (ev := EvSubscribe c (subject v) (subscribeInNats_func p)).
    set (sid := fst (Subscribe_result env (trace s ++ [ev]))).
    set (s1 := with_heap _ _).
    assert (Hm : map mode_of (heap s1) = map mode_of (heap s))
      by (apply map_mode_of_insert; exact Hv).
    assert (Hev : replay c (heap s) [p] = [ev]).
    { unfold replay, ev, subject_at. cbn. by rewrite Hv. }
    destruct (IH s1 c) as (s' & Hr & Hids & Hrest).
    + exact Hc.
    + cbn. rewrite length_insert. exact Hl'.
    + exact Hnd.
    + exists s'. split; [exact Hr|]. split.
      * intros [|i] q Hq.
        -- cbn in Hq. injection Hq as <-.
           rewrite (Hrest p Hnotin). cbn [s1 heap with_heap with_trace].
           rewrite list_lookup_insert_eq by exact Hp.
           eexists. split; [reflexivity|].
           change (take 1 (p :: l)) with [p]. rewrite Hev. reflexivity.
        -- cbn in Hq. destruct (Hids i q Hq) as (w & Hw & Hid).
           exists w. split; [exact Hw|]. rewrite Hid.
           rewrite (replay_modes c _ _ _ Hm).
           cbn [s1 trace with_heap with_trace].
           rewrite <- app_assoc. do 2 f_equal.
           change (take (S (S i)) (p :: l)) with (p :: take (S i) l).
           change (p :: take (S i) l) with ([p] ++ take (S i) l).
           unfold replay at 2. rewrite map_app.
           fold (replay c (heap s) [p]). rewrite Hev. reflexivity.
      * intros q Hq. apply not_elem_of_cons in Hq. destruct Hq as [Hne Hq].
        rewrite (Hrest q Hq). cbn [s1 heap with_heap with_trace].
        by apply list_lookup_insert_ne.
Qed.

(** [connect] after the accepted open: what is left to do is the replay. *)
Lemma connect_accepted_eq {UUID} (env : Env UUID) (s : State) :
  Connect_result env (dialled s) = None ->
  connect env s =
    (range (subscriptions (adapter s)) (subscribeInNats env) ;; ret None)%go
      {| adapter :=
           with_rand (Some (UnixNano env (dialled s ++ [EvNow])))
             (with_client (Some (connect_client s)) (adapter s));
         heap := heap s;
         trace := dialled s ++ [EvNow];
         made := S (made s) |}.
Proof.
  intros Hok.
  unfold connect. unfold bind at 1 2 3 4 5. unfold this at 1 2 3. cbn.
  assert (Hc : (match logger (adapter s) with
                | Some l => {| nats.serial := made s;
                               nats.ConnectedCallback := Some connect_func;
                               nats.Logger := Some l |}
                | None => {| nats.serial := made s;
                             nats.ConnectedCallback := Some connect_func;
                             nats.Logger := None |}
                end) = connect_client s)
    by (unfold connect_client; by destruct (logger (adapter s))).
  rewrite Hc. unfold call at 1. cbn. rewrite <- app_assoc. cbn.
  fold (connect_info s).
  change (trace s ++ [EvNewClient; EvConnect (connect_client s) (connect_info s)])
    with (dialled s).
  rewrite Hok. reflexivity.
Qed.

(** X14.  In a reachable state the stored pointers are pairwise distinct,
    so an accepted [Connect] registers every stored subscription exactly
    once, and afterwards the id of the [i]-th stored subscription is the id
    that the broker returned for the [i]-th subscribe call of this replay:
    ids from earlier connections are overwritten.  Subscriptions that are
    no longer stored keep the id they had. *)
Theorem replay_renews_ids (UUID : Type) (env : Env UUID) (xs : list Step)
    (s : State) :
  run env xs boot = Ret tt s ->
  Connect_result env (dialled s) = None ->
  let subs := subscriptions (adapter s) in
  let c := connect_client s in
  NoDup subs /\
  exists s',
    Connect env s = Ret None s' /\
    (forall i p, subs !! i = Some p ->
       exists v, heap s' !! p = Some v /\
         id v = fst (Subscribe_result env
                       (dialled s ++ [EvNow] ++
                        replay c (heap s) (take (S i) subs)))) /\
    (forall q, q ∉ subs -> heap s' !! q = heap s !! q).
Proof.
  intros Hrun Hok subs c.
  destruct (run_heap env xs boot s wf_boot Hrun) as (Hwf & _).
  assert (Hnd : NoDup subs).
  { apply (run_nodup env xs boot s wf_boot); [constructor|exact Hrun]. }
  split; [exact Hnd|].
  unfold Connect. rewrite (connect_accepted_eq env s Hok).
  match goal with
  | |- context [bind _ _ ?x] => set (s1 := x)
  end.
  destruct (range_subscribeInNats_ids env subs s1 c)
    as (s' & Hr & Hids & Hrest); [reflexivity|exact Hwf|exact Hnd|].
  exists s'. split; [unfold bind; fold subs; by rewrite Hr|].
  split; [|exact Hrest].
  intros i p Hi. destruct (Hids i p Hi) as (v & Hv & Hid).
  exists v. split; [exact Hv|]. rewrite Hid. cbn [s1 trace heap].
  by rewrite <- app_assoc.
Qed.

Lemma replay_renews_ids_witness :
  exists s' v,
    Connect Sample.ok Scenario.running = Ret None s' /\
    heap Scenario.running !! 1 =
      Some {| subject := "b"; callback := None; reply := Some Sample.f2;
              id := 5 |} /\
    heap s' !! 1 = Some v /\ id v = 11%Z.
Proof.
  destruct (replay_renews_ids nat Sample.ok
              [DoConfigure "h" 4222 "u" "p"; DoSubscribe "a" (Some Sample.f1);
               DoRespondToChannel "b" (Some Sample.f2);
               DoConnect; DoSubscribe "c" (Some Sample.f1)]
              Scenario.running eq_refl eq_refl)
    as (_ & s' & H1 & H2 & _).
  destruct (H2 1 1 eq_refl) as (v & Hv & Hid).
  exists s', v. split; [exact H1|]. split; [reflexivity|].
  split; [exact Hv|]. rewrite Hid. reflexivity.
Defined.

(** ** The client and the accepted opens *)

(** An accepted open on a longer trace is on the shorter one, or among the
    events added. *)
Lemma accepted_inv {UUID} (env : Env UUID) (t more : Trace) :
  accepted env (t ++ more) ->
  accepted env t \/
  exists m1 c info m2,
    more = m1 ++ EvConnect c info :: m2 /\
    Connect_result env (t ++ m1 ++ [EvConnect c info]) = None.
Proof.
  intros (pre & c & info & [k Hk] & Hr).
  apply app_eq_app in Hk. destruct Hk as [l [[H1 H2]|[H1 H2]]].
  - left. exists pre, c, info. split; [|exact Hr]. by exists l.
  - destruct (decide (l = [])) as [->|Hl].
    + left. exists pre, c, info. split; [|exact Hr].
      rewrite app_nil_r in H1. rewrite H1. reflexivity.
    + destruct (exists_last Hl) as (l' & x & ->).
      rewrite app_assoc in H1. apply app_inj_tail in H1.
      destruct H1 as [-> <-]. right. exists l', c, info, k.
      split; [by rewrite H2, <- app_assoc|]. by rewrite app_assoc.
Qed.

Lemma accepted_inv_quiet {UUID} (env : Env UUID) (t more : Trace) :
  forallb (fun e => negb (is_open e)) more = true ->
  accepted env (t ++ more) -> accepted env t.
Proof.
  intros Hq Ha. destruct (accepted_inv env t more Ha) as [H|H]; [exact H|].
  destruct H as (m1 & c & info & m2 & -> & _).
  rewrite forallb_app in Hq. apply andb_prop in Hq. destruct Hq as [_ Hq].
  cbn in Hq. discriminate.
Qed.

Lemma accepted_inv_refused {UUID} (env : Env UUID) (s : State) (e : error) :
  Connect_result env (dialled s) = Some e ->
  accepted env (dialled s) -> accepted env (trace s).
Proof.
  intros He Ha. unfold dialled in *.
  destruct (accepted_inv env _ _ Ha) as [H|H]; [exact H|].
  destruct H as (m1 & c & info & m2 & Hm & Hr).
  destruct m1 as [|e1 [|e2 m1]]; cbn in Hm.
  - discriminate.
  - injection Hm as <- <- <- <-. cbn in Hr. rewrite He in Hr. discriminate.
  - injection Hm as _ _ Hm. by destruct m1.
Qed.

(** Whoever has an accepted open on the trace holds a client. *)
Lemma step_accepted {UUID} (env : Env UUID) (x : Step) (s s' : State) :
  wf s ->
  (accepted env (trace s) -> is_Some (client (adapter s))) ->
  step env x s = Ret tt s' ->
  accepted env (trace s') -> is_Some (client (adapter s')).
Proof.
  intros Hwf Hinv.
  assert (Hq : forall more,
            forallb (fun e => negb (is_open e)) more = true ->
            accepted env (trace s ++ more) -> is_Some (client (adapter s))).
  { intros more Hm Ha. apply Hinv. by apply (accepted_inv_quiet env _ more). }
  step_cases env s Hwf; cbn;
    try match goal with
        | H : client (adapter s) = _ |- _ => rewrite ?H
        end;
    try exact Hinv;
    try (by eexists);
    try (rewrite <- ?app_assoc; apply Hq; reflexivity).
  - intros Ha. apply Hinv. by apply (accepted_inv_refused env s e).
  - intros _. rewrite Ha. by eexists.
Qed.

Lemma run_accepted {UUID} (env : Env UUID) (xs : list Step) :
  forall s s' : State,
    wf s ->
    (accepted env (trace s) -> is_Some (client (adapter s))) ->
    run env xs s = Ret tt s' ->
    accepted env (trace s') -> is_Some (client (adapter s')).
Proof.
  induction xs as [|x xs IH]; intros s s' Hwf Hinv.
  - cbn. by intros [= <-].
  - cbn [run]. unfold bind at 1.
    destruct (step env x s) as [[] s1|] eqn:E; [|discriminate].
    intros Hrun.
    destruct (step_heap env x s s1 Hwf E) as (Hwf1 & _).
    eapply IH; [exact Hwf1| |exact Hrun].
    exact (step_accepted env x s s1 Hwf Hinv E).
Qed.

Lemma accepted_nil {UUID} (env : Env UUID) : ~ accepted env [].
Proof.
  intros (pre & c & info & [k Hk] & _). by destruct pre.
Qed.

(** X15.  In every reachable state the adapter holds a client exactly when
    the broker has accepted one of its opens: refused opens never install a
    client, and nothing ever removes one.  So until the first accepted open
    [Publish] returns the adapter's own "No connection to Nats" error
    without calling the broker, and from then on every [Publish] makes the
    broker call and returns the broker's result. *)
Theorem client_iff_accepted (UUID : Type) (env : Env UUID) (xs : list Step)
    (s : State) (subj : string) (message : bytes) :
  run env xs boot = Ret tt s ->
  (is_Some (client (adapter s)) <-> accepted env (trace s)) /\
  (~ accepted env (trace s) ->
   Publish env subj message s
     = Ret (Some (errors_New "No connection to Nats")) s) /\
  (accepted env (trace s) ->
   exists c s',
     client (adapter s) = Some c /\
     Publish env subj message s = Ret (Publish_result env (trace s')) s' /\
     trace s' = trace s ++ [EvPublish c subj message]).
Proof.
  intros Hrun.
  assert (H1 : accepted env (trace s) -> is_Some (client (adapter s))).
  { apply (run_accepted env xs boot s wf_boot); [|exact Hrun].
    intros H. by destruct (accepted_nil env). }
  assert (H2 : is_Some (client (adapter s)) -> accepted env (trace s)).
  { intros [c Hc]. destruct (run_client env xs boot s wf_boot Hrun) as (H & _).
    destruct H as [H|H]; [by left| |exact H].
    rewrite Hc in H. discriminate. }
  split; [by split|]. split.
  - intros Hna. apply Publish_nil.
    destruct (client (adapter s)) as [c|] eqn:Hc; [|reflexivity].
    destruct Hna. apply H2. by eexists.
  - intros Ha. destruct (H1 Ha) as [c Hc]. exists c.
    rewrite (Publish_conn env s c) by exact Hc.
    match goal with |- exists s', _ /\ Ret _ ?x = _ /\ _ => exists x end.
    by repeat split.
Qed.

Lemma client_iff_accepted_witness :
  let s := match run (Sample.env true false)
                   [DoSubscribe "a" (Some Sample.f1); DoConnect; DoConnect]
                   boot with
           | Ret _ s => s
           | Panic => boot
           end in
  ~ accepted (Sample.env true false) (trace s) /\
  Publish (Sample.env true false) "x" [] s
    = Ret (Some (errors_New "No connection to Nats")) s.
Proof.
  intros s.
  destruct (client_iff_accepted nat (Sample.env true false)
              [DoSubscribe "a" (Some Sample.f1); DoConnect; DoConnect]
              s "x" [] eq_refl) as ([H1 H2] & H3 & _).
  assert (Hc : client (adapter s) = None) by reflexivity.
  assert (Hna : ~ accepted (Sample.env true false) (trace s)).
  { intros Ha. destruct (H2 Ha) as [c Hs]. rewrite Hc in Hs. discriminate. }
  split; [exact Hna|exact (H3 Hna)].
Defined.

(** X16.  The inbox subscription of a [Request] is stored like any other,
    and nothing takes it out when the reply has come: the next accepted
    [Connect] registers the inbox again, on the new client. *)
Theorem request_inbox_is_replayed (UUID : Type) (env : Env UUID)
    (s s1 : State) (c : nats.Client) (subj : string) (message : bytes)
    (cb : option Func) (uuid : UUID) (e : option error) :
  wf s ->
  client (adapter s) = Some c ->
  NewV4_result env (trace s ++ [EvNewV4]) = inl uuid ->
  Request env subj message cb s = Ret e s1 ->
  Connect_result env (dialled s1) = None ->
  exists s2,
    Connect env s1 = Ret None s2 /\
    last (trace s2) =
      Some (EvSubscribe (connect_client s1) (Sprintf_inbox env uuid)
              (subscribeInNats_func (length (heap s)))).
Proof.
  intros Hwf Hc Hu Hreq Hok.
  rewrite (Request_conn env s c _ _ _ uuid Hc Hu) in Hreq.
  injection Hreq as _ <-.
  match type of Hok with
  | Connect_result _ (dialled ?x) = _ => set (s1 := x) in *
  end.
  assert (Hwf1 : wf s1).
  { apply (wf_registered env c _ (with_trace (trace s ++ [EvNewV4]) s)).
    exact Hwf. }
  destruct (connect_accepted env s1 Hwf1 Hok) as (s2 & Hr & _ & _ & Ht & _).
  exists s2. split; [exact Hr|]. rewrite Ht.
  cbn [s1 registered with_trace adapter subscriptions with_subscriptions heap].
  rewrite map_app, !app_assoc. cbn [map]. rewrite last_snoc.
  unfold subject_at. by rewrite list_lookup_middle by reflexivity.
Qed.

Lemma request_inbox_is_replayed_witness :
  exists s1 s2,
    Request Sample.ok "q" [] (Some Sample.f1) Scenario.running = Ret None s1 /\
    Connect Sample.ok s1 = Ret None s2 /\
    last (trace s2) =
      Some (EvSubscribe (connect_client s1) "_INBOX.xxxxxxx"
              (subscribeInNats_func 3)).
Proof.
  eexists.
  destruct (request_inbox_is_replayed nat Sample.ok Scenario.running _
              (connect_client Scenario.waiting) "q" [] (Some Sample.f1) 7 None
              ltac:(vm_compute; repeat constructor) eq_refl eq_refl eq_refl
              eq_refl) as (s2 & H1 & H2).
  exists s2. split; [reflexivity|]. split; [exact H1|exact H2].
Defined.
